(** * markdown-proxy: the Lambda handler of [src/index.mjs]

    A shallow embedding of the handler: the token budget
    ([estimateTokens], [truncateContent]), the request validation, the
    exchange with the completion API and the re-framing of its event
    stream, followed by the properties the specification states about them.

    Conventions of the embedding.
    - A JavaScript string is the list of its UTF-16 code units
      ([jsstring]); [length] is the [.length] of the source.
    - The event is the object API Gateway passes: [httpMethod] is a string
      and [body] is a string, [null] or absent.
    - [console] logging has no influence on the value the handler returns
      and is left out.
    - Arithmetic that the source performs on IEEE-754 doubles is carried
      out on exact rationals; every operand here is an integer far below
      2^53, and on those the operations used ([/ 4], [* 0.6], [* 0.2]
      followed by [Math.ceil] / [Math.floor]) give the same integers.
    - [JSON.parse], [JSON.stringify], [trim], [split], [startsWith] and
      [substring] are the ECMAScript functions, written out here; what
      depends on the value of a Number is taken from the engine
      ([Engine]).
    - The network is a trace of the events Node delivers to the listeners
      the handler registers ([upstream]); [https.request] itself is taken
      not to throw. *)

From Stdlib Require Import String Ascii DecimalString.
From Stdlib Require Import List ZArith NArith QArith Qround Lia Bool.
From Stdlib Require Import PrimFloat Uint63.
Import ListNotations.
Close Scope Q_scope.
Open Scope Z_scope.

(** ** JavaScript strings *)

Definition jsstring := list N.

(** Reader for literals: the characters of [s], where a backslash followed
    by [n] stands for a line feed, two backslashes stand for one, and an
    apostrophe stands for a double quote (no literal of the source contains
    an apostrophe). *)
Fixpoint js_chars (l : list ascii) : jsstring :=
  match l with
  | [] => []
  | a :: r =>
      match a, r with
      | "\"%char, "n"%char :: r' => 10%N :: js_chars r'
      | "\"%char, "\"%char :: r' => 92%N :: js_chars r'
      | "'"%char, _ => 34%N :: js_chars r
      | _, _ => N_of_ascii a :: js_chars r
      end
  end.

Definition js (s : string) : jsstring := js_chars (list_ascii_of_string s).

Definition LF : N := 10%N.

Fixpoint jseqb (a b : jsstring) : bool :=
  match a, b with
  | [], [] => true
  | x :: a', y :: b' => N.eqb x y && jseqb a' b'
  | _, _ => false
  end.

(** [String.prototype.startsWith] *)
Fixpoint startsWith (s p : jsstring) {struct p} : bool :=
  match p, s with
  | [], _ => true
  | x :: p', y :: s' => N.eqb x y && startsWith s' p'
  | _ :: _, [] => false
  end.

(** [String.prototype.substring(start, end)]: both indices are clamped to
    [0, length] and swapped when [start > end]; a missing [end] is the
    length. *)
Definition clamp (len i : Z) : Z := Z.min (Z.max i 0) len.

Definition substring (s : jsstring) (start : Z) (end_ : option Z) : jsstring :=
  let len := Z.of_nat (length s) in
  let a := clamp len start in
  let b := match end_ with Some e => clamp len e | None => len end in
  let from := Z.min a b in
  let to := Z.max a b in
  firstn (Z.to_nat (to - from)) (skipn (Z.to_nat from) s).

(** Whether [p] occurs in [s] at position [i]; the number of positions at
    which it occurs; [String.prototype.includes]. *)
Definition occurs_at (p s : jsstring) (i : nat) : bool :=
  startsWith (skipn i s) p.

Definition occurrences (p s : jsstring) : nat :=
  length (filter (occurs_at p s) (seq 0 (S (length s)))).

Definition includes (s p : jsstring) : bool :=
  existsb (occurs_at p s) (seq 0 (S (length s))).

(** ** Token budget *)

(** [function estimateTokens(text) { return Math.ceil(text.length / 4); }] *)
Definition estimateTokens (text : jsstring) : Z :=
  Qceiling (inject_Z (Z.of_nat (length text)) / 4)%Q.

Definition truncation_marker : jsstring :=
  js "\n\n[... middle section truncated for length ...]\n\n".

(** The marker without the line feeds around it. *)
Definition marker_text : jsstring :=
  js "[... middle section truncated for length ...]".

(** [function truncateContent(content, maxTokens)], for an integer
    [maxTokens] (the source passes the constant 22000). *)
Definition truncateContent (content : jsstring) (maxTokens : Z) : jsstring :=
  let estimatedTokens := estimateTokens content in
  if estimatedTokens <=? maxTokens then content
  else
    let charsPerToken := 4 in
    let maxChars := maxTokens * charsPerToken in
    let firstPortion := Qfloor (inject_Z maxChars * 0.6)%Q in
    let lastPortion := Qfloor (inject_Z maxChars * 0.2)%Q in
    substring content 0 (Some firstPortion)
      ++ truncation_marker
      ++ substring content (Z.of_nat (length content) - lastPortion) None.

Definition MAX_CONTENT_TOKENS : Z := 22000.

(** [String.prototype.trim]: strips WhiteSpace and LineTerminator code
    units from both ends. *)
Definition is_js_space (c : N) : bool :=
  ((9 <=? c) && (c <=? 13) || (c =? 32) || (c =? 160) || (c =? 5760)
   || (8192 <=? c) && (c <=? 8202) || (c =? 8232) || (c =? 8233)
   || (c =? 8239) || (c =? 8287) || (c =? 12288) || (c =? 65279))%N.

Fixpoint trimStart (s : jsstring) : jsstring :=
  match s with
  | c :: r => if is_js_space c then trimStart r else s
  | [] => []
  end.

Definition trimEnd (s : jsstring) : jsstring := rev (trimStart (rev s)).

Definition trim (s : jsstring) : jsstring := trimEnd (trimStart s).

(** [s.split('\n')] *)
Fixpoint split_lines (s : jsstring) : list jsstring :=
  match s with
  | [] => [[]]
  | c :: r =>
      if (c =? LF)%N then [] :: split_lines r
      else match split_lines r with
           | l :: ls => (c :: l) :: ls
           | [] => [[c]]
           end
  end.

(** ** JSON values, [JSON.parse] and [JSON.stringify]

    A Number read by [JSON.parse] is kept as the literal it was read from;
    its IEEE-754 value is never computed here, and the two places where the
    handler depends on it are fields of the [Engine] below. *)

#[warnings="-register-all"]
Inductive value :=
| VNull
| VBool (b : bool)
| VNum (literal : jsstring)
| VStr (s : jsstring)
| VArr (elements : list value)
| VObj (members : list (jsstring * value)).

(** Own properties, in creation order. [define] is CreateDataProperty: a
    repeated key keeps its place and takes the new value. *)
Fixpoint define (k : jsstring) (v : value) (o : list (jsstring * value))
  : list (jsstring * value) :=
  match o with
  | [] => [(k, v)]
  | (k', v') :: r =>
      if jseqb k' k then (k', v) :: r else (k', v') :: define k v r
  end.

Fixpoint lookup {A} (k : jsstring) (o : list (jsstring * A)) : option A :=
  match o with
  | [] => None
  | (k', v) :: r => if jseqb k' k then Some v else lookup k r
  end.

Module Json.

Definition is_ws (c : N) : bool :=
  ((c =? 9) || (c =? 10) || (c =? 13) || (c =? 32))%N.

Fixpoint skip_ws (s : jsstring) : jsstring :=
  match s with
  | c :: r => if is_ws c then skip_ws r else s
  | [] => []
  end.

Definition is_digit (c : N) : bool := ((48 <=? c) && (c <=? 57))%N.

Definition hex_value (c : N) : option N :=
  if is_digit c then Some (c - 48)%N
  else if ((97 <=? c) && (c <=? 102))%N then Some (c - 87)%N
  else if ((65 <=? c) && (c <=? 70))%N then Some (c - 55)%N
  else None.

Definition escape_char (c : N) : option N :=
  if (c =? 34)%N then Some 34%N          (* quote *)
  else if (c =? 92)%N then Some 92%N     (* backslash *)
  else if (c =? 47)%N then Some 47%N     (* solidus *)
  else if (c =? 98)%N then Some 8%N      (* b *)
  else if (c =? 102)%N then Some 12%N    (* f *)
  else if (c =? 110)%N then Some 10%N    (* n *)
  else if (c =? 114)%N then Some 13%N    (* r *)
  else if (c =? 116)%N then Some 9%N     (* t *)
  else None.

(** The characters of a string literal after its opening quote, up to and
    including the closing quote. *)
Fixpoint parse_chars (s : jsstring) : option (jsstring * jsstring) :=
  match s with
  | [] => None
  | c :: r =>
      if (c =? 34)%N then Some ([], r)
      else if (c =? 92)%N then
        match r with
        | [] => None
        | e :: r1 =>
            if (e =? 117)%N then
              match r1 with
              | h1 :: h2 :: h3 :: h4 :: r2 =>
                  match hex_value h1, hex_value h2, hex_value h3, hex_value h4 with
                  | Some a, Some b, Some c', Some d =>
                      match parse_chars r2 with
                      | Some (str, rest) =>
                          Some ((a * 4096 + b * 256 + c' * 16 + d)%N :: str, rest)
                      | None => None
                      end
                  | _, _, _, _ => None
                  end
              | _ => None
              end
            else
              match escape_char e with
              | Some x =>
                  match parse_chars r1 with
                  | Some (str, rest) => Some (x :: str, rest)
                  | None => None
                  end
              | None => None
              end
        end
      else if (c <? 32)%N then None
      else
        match parse_chars r with
        | Some (str, rest) => Some (c :: str, rest)
        | None => None
        end
  end.

(** Number literals: an optional minus sign; [0] or a non-zero digit and
    more digits; optionally a point and at least one digit; optionally [e]
    or [E], a sign and at least one digit. *)
Fixpoint span_digits (s : jsstring) : jsstring * jsstring :=
  match s with
  | c :: r =>
      if is_digit c then let (d, r') := span_digits r in (c :: d, r')
      else ([], s)
  | [] => ([], [])
  end.

Definition parse_int (s : jsstring) : option (jsstring * jsstring) :=
  match s with
  | c :: r =>
      if (c =? 48)%N then Some ([c], r)
      else if is_digit c then let (d, r') := span_digits r in Some (c :: d, r')
      else None
  | [] => None
  end.

Definition parse_frac (s : jsstring) : option (jsstring * jsstring) :=
  match s with
  | c :: r =>
      if (c =? 46)%N then
        match span_digits r with
        | ([], _) => None
        | (d, r') => Some (c :: d, r')
        end
      else Some ([], s)
  | [] => Some ([], [])
  end.

Definition parse_sign (s : jsstring) : jsstring * jsstring :=
  match s with
  | c :: r => if ((c =? 43) || (c =? 45))%N then ([c], r) else ([], s)
  | [] => ([], [])
  end.

Definition parse_exp (s : jsstring) : option (jsstring * jsstring) :=
  match s with
  | c :: r =>
      if ((c =? 101) || (c =? 69))%N then
        let (sg, r1) := parse_sign r in
        match span_digits r1 with
        | ([], _) => None
        | (d, r') => Some (c :: sg ++ d, r')
        end
      else Some ([], s)
  | [] => Some ([], [])
  end.

Definition parse_number (s : jsstring) : option (jsstring * jsstring) :=
  let (sg, s1) :=
    match s with
    | c :: r => if (c =? 45)%N then ([c], r) else ([], s)
    | [] => ([], [])
    end in
  match parse_int s1 with
  | None => None
  | Some (i, s2) =>
      match parse_frac s2 with
      | None => None
      | Some (f, s3) =>
          match parse_exp s3 with
          | None => None
          | Some (e, s4) => Some (sg ++ i ++ f ++ e, s4)
          end
      end
  end.

(** A value, after optional white space. [parse_elements] and
    [parse_members] start at an element (a member) and run to the closing
    bracket. Every call spends one unit of [fuel]. *)
Fixpoint parse_value (fuel : nat) (s : jsstring) {struct fuel}
  : option (value * jsstring) :=
  match fuel with
  | O => None
  | S f =>
      match skip_ws s with
      | [] => None
      | c :: r =>
          if (c =? 123)%N then
            match skip_ws r with
            | [] => None
            | c' :: r' =>
                if (c' =? 125)%N then Some (VObj [], r')
                else parse_members f [] (c' :: r')
            end
          else if (c =? 91)%N then
            match skip_ws r with
            | [] => None
            | c' :: r' =>
                if (c' =? 93)%N then Some (VArr [], r')
                else parse_elements f [] (c' :: r')
            end
          else if (c =? 34)%N then
            match parse_chars r with
            | Some (str, rest) => Some (VStr str, rest)
            | None => None
            end
          else if startsWith (c :: r) (js "true") then Some (VBool true, skipn 4 (c :: r))
          else if startsWith (c :: r) (js "false") then Some (VBool false, skipn 5 (c :: r))
          else if startsWith (c :: r) (js "null") then Some (VNull, skipn 4 (c :: r))
          else
            match parse_number (c :: r) with
            | Some (lit, rest) => Some (VNum lit, rest)
            | None => None
            end
      end
  end
with parse_elements (fuel : nat) (acc : list value) (s : jsstring) {struct fuel}
  : option (value * jsstring) :=
  match fuel with
  | O => None
  | S f =>
      match parse_value f s with
      | None => None
      | Some (v, r) =>
          match skip_ws r with
          | [] => None
          | c :: r' =>
              if (c =? 44)%N then parse_elements f (acc ++ [v]) r'
              else if (c =? 93)%N then Some (VArr (acc ++ [v]), r')
              else None
          end
      end
  end
with parse_members (fuel : nat) (acc : list (jsstring * value)) (s : jsstring)
  {struct fuel} : option (value * jsstring) :=
  match fuel with
  | O => None
  | S f =>
      match skip_ws s with
      | [] => None
      | q :: r =>
          if (q =? 34)%N then
            match parse_chars r with
            | None => None
            | Some (k, r1) =>
                match skip_ws r1 with
                | [] => None
                | c :: r2 =>
                    if (c =? 58)%N then
                      match parse_value f r2 with
                      | None => None
                      | Some (v, r3) =>
                          match skip_ws r3 with
                          | [] => None
                          | c' :: r4 =>
                              if (c' =? 44)%N then parse_members f (define k v acc) r4
                              else if (c' =? 125)%N then Some (VObj (define k v acc), r4)
                              else None
                          end
                      end
                    else None
                end
            end
          else None
      end
  end.

(** [JSON.parse(text)]; [None] is the thrown SyntaxError. The fuel is
    enough for every text (see [parse_value_fuel]). *)
Definition parse (text : jsstring) : option value :=
  match parse_value (2 * length text + 2) text with
  | Some (v, rest) =>
      match skip_ws rest with
      | [] => Some v
      | _ :: _ => None
      end
  | None => None
  end.

End Json.


(** Property reads the handler performs. [get v name] is [v.name] for a
    name that no prototype defines ([prompt], [choices], [delta], ...);
    [get0 v] is [v[0]]. [None] is [undefined]; reading from [null] is a
    TypeError, raised by the callers. *)
Definition get (v : value) (name : jsstring) : option value :=
  match v with
  | VObj o => lookup name o
  | _ => None
  end.

Definition get0 (v : value) : option value :=
  match v with
  | VArr (x :: _) => Some x
  | VStr (c :: _) => Some (VStr [c])
  | VObj o => lookup (js "0") o
  | _ => None
  end.

(** ** Exceptions *)

Inductive throw_site :=
| DestructureNull      (* const { prompt, markdown, selectedText } = null *)
| PromptTrim           (* prompt.trim is not a function *)
| MarkdownLength       (* text.length, text undefined or null *)
| MarkdownTruncation   (* estimateTokens / truncateContent on a non-string *)
| SelectedTextTrim     (* selectedText.trim is not a function *)
| MarkdownInterpolation (* template literal on a non-string markdown *)
| ReadChoicesOfNull.   (* parsed.choices, parsed null *)

Inductive exn :=
| SyntaxError
| TypeError (site : throw_site).

Inductive result (A : Type) :=
| Ok (a : A)
| Throw (e : exn).
Arguments Ok {A} a.
Arguments Throw {A} e.

Definition bind {A B} (r : result A) (k : A -> result B) : result B :=
  match r with
  | Ok a => k a
  | Throw e => Throw e
  end.

Notation "x <- e ;; k" := (bind e (fun x => k))
  (at level 61, e at next level, right associativity).

Definition error_name (e : exn) : jsstring :=
  match e with
  | SyntaxError => js "SyntaxError"
  | TypeError _ => js "TypeError"
  end.

(** ** What the model takes from the JavaScript engine

    - [number_truthy lit]: ToBoolean of the Number that [JSON.parse] reads
      from the literal [lit];
    - [number_json lit]: what [JSON.stringify] prints for that Number;
    - [markdown_coercion v]: the outcome of the implicit conversions the
      handler applies to a [markdown] that is neither absent, [null] nor a
      string ([.length / 4], [.substring], template interpolation);
    - [error_message], [error_stack]: the [message] and [stack] of the
      error the engine throws. *)

Inductive coercion :=
| TruncationThrows
| InterpolationThrows
| Interpolates (text : jsstring).

Record Engine := {
  number_truthy : jsstring -> bool;
  number_json : jsstring -> jsstring;
  markdown_coercion : value -> coercion;
  error_message : exn -> jsstring;
  error_stack : exn -> jsstring
}.

(** ** The Lambda event, the environment, the response *)

Inductive request_body :=
| Absent
| Null
| Text (s : jsstring).

Record event := {
  httpMethod : jsstring;
  body : request_body
}.

Record environment := {
  OPENAI_API_KEY : option jsstring
}.

Record response := {
  statusCode : Z;
  headers : list (jsstring * jsstring);
  response_body : jsstring
}.

(** The argument of [https.request] and what is written to it. *)
Record request := {
  hostname : jsstring;
  path : jsstring;
  method : jsstring;
  request_headers : list (jsstring * jsstring);
  bodyPayload : jsstring
}.

(** ** The upstream exchange, as Node delivers it to the listeners *)

Record js_error := {
  err_name : jsstring;
  err_message : jsstring;
  err_code : option jsstring
}.

Inductive emitted :=
| ReqError (err : js_error)       (* req.on('error') *)
| ReqTimeout                      (* req.on('timeout') *)
| Response (status : Z)           (* the callback given to https.request *)
| ResData (chunk : jsstring)      (* res.on('data'), chunk.toString() *)
| ResEnd                          (* res.on('end') *)
| ResError (err : js_error).      (* res.on('error') *)

Record upstream := {
  write_throws : option js_error; (* req.write / req.end throw *)
  emits : list emitted
}.

(** The listeners registered on [res], with the variables they close over;
    [Crashed]: an ['error'] was emitted on [res] with no listener for it. *)
Inductive listening :=
| NoResponse
| ErrorBody (status : Z) (errorBody : jsstring)
| Streaming (streamResponse : jsstring) (chunkCount : nat)
| Crashed.

Section Handler.

Variable E : Engine.

(** *** [JSON.stringify] *)

Definition hex_digit (n : N) : N := (if n <? 10 then 48 + n else 87 + n)%N.

Definition unicode_escape (c : N) : jsstring :=
  [92; 117; hex_digit (c / 4096 mod 16); hex_digit (c / 256 mod 16);
   hex_digit (c / 16 mod 16); hex_digit (c mod 16)]%N.

Definition is_high_surrogate (c : N) : bool := ((55296 <=? c) && (c <=? 56319))%N.
Definition is_low_surrogate (c : N) : bool := ((56320 <=? c) && (c <=? 57343))%N.

(** QuoteJSONString without the enclosing quotes. *)
Fixpoint quote_chars (s : jsstring) : jsstring :=
  match s with
  | [] => []
  | c :: r =>
      if (c =? 8)%N then [92; 98]%N ++ quote_chars r
      else if (c =? 9)%N then [92; 116]%N ++ quote_chars r
      else if (c =? 10)%N then [92; 110]%N ++ quote_chars r
      else if (c =? 12)%N then [92; 102]%N ++ quote_chars r
      else if (c =? 13)%N then [92; 114]%N ++ quote_chars r
      else if (c =? 34)%N then [92; 34]%N ++ quote_chars r
      else if (c =? 92)%N then [92; 92]%N ++ quote_chars r
      else if (c <? 32)%N then unicode_escape c ++ quote_chars r
      else if is_high_surrogate c then
        match r with
        | d :: r' =>
            if is_low_surrogate d then c :: d :: quote_chars r'
            else unicode_escape c ++ quote_chars r
        | [] => unicode_escape c
        end
      else if is_low_surrogate c then unicode_escape c ++ quote_chars r
      else c :: quote_chars r
  end.

Definition quote (s : jsstring) : jsstring := [34%N] ++ quote_chars s ++ [34%N].

Fixpoint join_comma (l : list jsstring) : jsstring :=
  match l with
  | [] => []
  | [x] => x
  | x :: r => x ++ [44%N] ++ join_comma r
  end.

(** OrdinaryOwnPropertyKeys: array indices in ascending order, then the
    other names in creation order. *)
Definition array_index (k : jsstring) : option N :=
  match k with
  | [] => None
  | c :: r =>
      if forallb Json.is_digit k
         && (negb (c =? 48)%N || match r with [] => true | _ :: _ => false end)
      then
        let n := fold_left (fun acc d => acc * 10 + (d - 48))%N k 0%N in
        if (n <? 4294967295)%N then Some n else None
      else None
  end.

Fixpoint insert_by_index {A} (n : N) (x : A) (l : list (N * A)) : list (N * A) :=
  match l with
  | [] => [(n, x)]
  | (m, y) :: r =>
      if (n <? m)%N then (n, x) :: l else (m, y) :: insert_by_index n x r
  end.

Definition own_property_order {A} (o : list (jsstring * A)) : list (jsstring * A) :=
  map snd
    (fold_right
       (fun kv acc =>
          match array_index (fst kv) with
          | Some n => insert_by_index n kv acc
          | None => acc
          end) [] o)
  ++ filter (fun kv => match array_index (fst kv) with
                       | Some _ => false
                       | None => true
                       end) o.

Fixpoint stringify (v : value) : jsstring :=
  match v with
  | VNull => js "null"
  | VBool true => js "true"
  | VBool false => js "false"
  | VNum lit => number_json E lit
  | VStr s => quote s
  | VArr l => [91%N] ++ join_comma (map stringify l) ++ [93%N]
  | VObj o =>
      [123%N]
        ++ join_comma
             (map (fun kv => quote (fst kv) ++ [58%N] ++ snd kv)
                (own_property_order
                   (map (fun kv : jsstring * value =>
                          let (k, x) := kv in (k, stringify x)) o)))
        ++ [125%N]
  end.

Definition JSON_parse (text : jsstring) : result value :=
  match Json.parse text with
  | Some v => Ok v
  | None => Throw SyntaxError
  end.

(** ToBoolean *)
Definition truthy (v : value) : bool :=
  match v with
  | VNull => false
  | VBool b => b
  | VNum lit => number_truthy E lit
  | VStr s => match s with [] => false | _ :: _ => true end
  | VArr _ | VObj _ => true
  end.

(** *** The stream reframer: the ['data'] listener of a 200 response *)

(** [parsed.choices?.[0]?.delta?.content] *)
Definition delta_content (parsed : value) : result (option value) :=
  match parsed with
  | VNull => Throw (TypeError ReadChoicesOfNull)
  | _ =>
      Ok match get parsed (js "choices") with
         | None | Some VNull => None
         | Some choices =>
             match get0 choices with
             | None | Some VNull => None
             | Some first =>
                 match get first (js "delta") with
                 | None | Some VNull => None
                 | Some delta => get delta (js "content")
                 end
             end
         end
  end.

(** The body of [for (const line of lines)]. *)
Definition reframe_line (streamResponse line : jsstring) : jsstring :=
  if startsWith line (js "data: ") then
    let data := trim (skipn 6 line) in
    if jseqb data (js "[DONE]") then streamResponse ++ js "data: [DONE]\n\n"
    else
      match data with
      | [] => streamResponse
      | _ :: _ =>
          match (parsed <- JSON_parse data ;; delta_content parsed) with
          | Ok (Some content) =>
              if truthy content then
                streamResponse ++ js "data: "
                  ++ stringify (VObj [(js "content", content)]) ++ js "\n\n"
              else streamResponse
          | Ok None => streamResponse
          | Throw _ => streamResponse      (* catch (parseError): log.warn *)
          end
      end
  else streamResponse.

Definition on_data (streamResponse chunk : jsstring) : jsstring :=
  fold_left reframe_line (split_lines chunk) streamResponse.

(** The buffer after the chunks of a stream. *)
Definition reframe (chunks : list jsstring) : jsstring :=
  fold_left on_data chunks [].

(** *** Responses *)

Definition cors : jsstring * jsstring := (js "Access-Control-Allow-Origin", js "*").

Definition json_response (status : Z) (fields : list (jsstring * value)) : response :=
  {| statusCode := status;
     headers := [(js "Content-Type", js "application/json"); cors];
     response_body := stringify (VObj fields) |}.

Definition preflight : response :=
  {| statusCode := 200;
     headers := [cors;
                 (js "Access-Control-Allow-Methods", js "POST, OPTIONS");
                 (js "Access-Control-Allow-Headers", js "Content-Type, Authorization")];
     response_body := [] |}.

Definition stream_response (streamResponse : jsstring) : response :=
  {| statusCode := 200;
     headers := [(js "Content-Type", js "text/event-stream"); cors;
                 (js "Cache-Control", js "no-cache")];
     response_body := streamResponse |}.

Definition optional (name : jsstring) (x : option jsstring) : list (jsstring * value) :=
  match x with
  | Some s => [(name, VStr s)]
  | None => []
  end.

Definition decimal (z : Z) : jsstring :=
  js (NilZero.string_of_int (Z.to_int z)).

(** *** The promise executor: one outbound request *)

Definition step (l : listening) (e : emitted) : listening * option response :=
  match l, e with
  | Crashed, _ => (Crashed, None)
  | _, ReqError err =>
      (l, Some (json_response 500
                  ([(js "error", VStr (js "Request failed"));
                    (js "details", VStr (err_message err));
                    (js "errorName", VStr (err_name err))]
                   ++ optional (js "errorCode") (err_code err))))
  | _, ReqTimeout => (l, None)               (* log.error; req.destroy() *)
  | NoResponse, Response status =>
      (if status =? 200 then Streaming [] 0 else ErrorBody status [], None)
  | ErrorBody status errorBody, ResData chunk =>
      (ErrorBody status (errorBody ++ chunk), None)
  | ErrorBody status errorBody, ResEnd =>
      (l, Some (json_response status
                  [(js "error", VStr (js "OpenAI API error"));
                   (js "statusCode", VNum (decimal status));
                   (js "details", VStr errorBody)]))
  | ErrorBody _ _, ResError _ => (Crashed, None)
  | Streaming streamResponse chunkCount, ResData chunk =>
      (Streaming (on_data streamResponse chunk) (S chunkCount), None)
  | Streaming streamResponse _, ResEnd =>
      (l, Some (stream_response streamResponse))
  | Streaming _ _, ResError err =>
      (l, Some (json_response 500
                  [(js "error", VStr (js "OpenAI API error"));
                   (js "details", VStr (err_message err));
                   (js "errorName", VStr (err_name err))]))
  | _, _ => (l, None)                        (* no listener *)
  end.

(** The value the promise settles with: the first [resolve]. *)
Fixpoint settle (l : listening) (es : list emitted) : option response :=
  match es with
  | [] => None
  | e :: r =>
      match step l e with
      | (_, Some resp) => Some resp
      | (l', None) => settle l' r
      end
  end.

Definition exchange (up : upstream) : option response :=
  match write_throws up with
  | Some writeError =>
      Some (json_response 500
              [(js "error", VStr (js "Failed to send request"));
               (js "details", VStr (err_message writeError))])
  | None => settle NoResponse (emits up)
  end.

(** *** The handler *)

Inductive decision :=
| Respond (r : response)     (* return { statusCode, headers, body } *)
| Call (rq : request).       (* return new Promise(...): https.request *)

(** [const { prompt, markdown, selectedText } = parsedBody] *)
Definition destructure (parsedBody : value)
  : result (option value * option value * option value) :=
  match parsedBody with
  | VNull => Throw (TypeError DestructureNull)
  | _ => Ok (get parsedBody (js "prompt"),
             get parsedBody (js "markdown"),
             get parsedBody (js "selectedText"))
  end.

(** [x && x.trim()], as a condition: [undefined], [null] and the falsy
    values give [false]; a string gives whether it is non-blank; any other
    truthy value has no [trim] method. *)
Definition non_blank (site : throw_site) (x : option value) : result bool :=
  match x with
  | None => Ok false
  | Some v =>
      if truthy v then
        match v with
        | VStr s => Ok (negb (jseqb (trim s) []))
        | _ => Throw (TypeError site)
        end
      else Ok false
  end.

(** The text of a field known to be a string. *)
Definition text_of (x : option value) : jsstring :=
  match x with
  | Some (VStr s) => s
  | _ => []
  end.

(** [processedMarkdown]: a string, possibly truncated, or a value of another
    type that went through lines 114-129 unchanged. *)
Inductive processed :=
| Plain (s : jsstring)
| Foreign (v : value).

Definition process_markdown (markdown : option value) : result processed :=
  match markdown with
  | None | Some VNull => Throw (TypeError MarkdownLength)
  | Some (VStr m) =>
      let markdownTokens := estimateTokens m in
      Ok (Plain (if markdownTokens >? MAX_CONTENT_TOKENS
                 then truncateContent m MAX_CONTENT_TOKENS
                 else m))
  | Some v =>
      match markdown_coercion E v with
      | TruncationThrows => Throw (TypeError MarkdownTruncation)
      | _ => Ok (Foreign v)
      end
  end.

Definition interpolate (p : processed) : result jsstring :=
  match p with
  | Plain s => Ok s
  | Foreign v =>
      match markdown_coercion E v with
      | Interpolates text => Ok text
      | _ => Throw (TypeError MarkdownInterpolation)
      end
  end.

Definition systemPrompt : jsstring :=
  js "You are an AI writing assistant that helps edit and improve text.".

Definition payload (userPrompt : jsstring) : value :=
  VObj [(js "model", VStr (js "gpt-4o"));
        (js "messages",
         VArr [VObj [(js "role", VStr (js "system")); (js "content", VStr systemPrompt)];
               VObj [(js "role", VStr (js "user")); (js "content", VStr userPrompt)]]);
        (js "stream", VBool true);
        (js "max_tokens", VNum (js "4000"));
        (js "temperature", VNum (js "0.3"))].

Definition openai_request (key bodyPayload : jsstring) : request :=
  {| hostname := js "api.openai.com";
     path := js "/v1/chat/completions";
     method := js "POST";
     request_headers := [(js "Content-Type", js "application/json");
                         (js "Authorization", js "Bearer " ++ key)];
     bodyPayload := bodyPayload |}.

(** The [try] block, up to the creation of the promise. *)
Definition handler_try (env : environment) (ev : event) : result decision :=
  let text := match body ev with
              | Text (c :: s) => c :: s
              | _ => js "{}"                       (* event.body || '{}' *)
              end in
  match Json.parse text with
  | None =>
      Ok (Respond (json_response 400
                     [(js "error", VStr (js "Invalid JSON in request body"))]))
  | Some parsedBody =>
      fields <- destructure parsedBody ;;
      let '(prompt, markdown, selectedText) := fields in
      has_prompt <- non_blank PromptTrim prompt ;;
      if negb has_prompt then
        Ok (Respond (json_response 400
                       [(js "error", VStr (js "Prompt is required"))]))
      else
        processedMarkdown <- process_markdown markdown ;;
        selected <- non_blank SelectedTextTrim selectedText ;;
        document <- interpolate processedMarkdown ;;
        let userPrompt :=
          if selected then
            js "Edit the selected text: '" ++ text_of selectedText
              ++ js "'\n\nUser request: " ++ text_of prompt
              ++ js "\n\nFull document context: " ++ document
          else
            js "Edit this document based on the request: " ++ text_of prompt
              ++ js "\n\nDocument: " ++ document in
        let bodyPayload := stringify (payload userPrompt) in
        match OPENAI_API_KEY env with
        | None | Some [] =>
            Ok (Respond (json_response 500
                           [(js "error", VStr (js "Server configuration error"));
                            (js "details", VStr (js "API key not configured"))]))
        | Some key => Ok (Call (openai_request key bodyPayload))
        end
  end.

(** [catch (error)] of the outer [try]. *)
Definition catch_all (error : exn) : response :=
  json_response 500
    [(js "error", VStr (js "Internal server error"));
     (js "details", VStr (error_message E error));
     (js "errorName", VStr (error_name error));
     (js "stack", VStr (error_stack E error))].

(** [handler(event)]: the outbound requests made, and the response the
    returned promise settles with, if it settles. *)
Definition handler (env : environment) (ev : event) (up : upstream)
  : list request * option response :=
  if jseqb (httpMethod ev) (js "OPTIONS") then ([], Some preflight)
  else
    match handler_try env ev with
    | Ok (Respond r) => ([], Some r)
    | Ok (Call rq) => ([rq], exchange up)
    | Throw error => ([], Some (catch_all error))
    end.

End Handler.

(** An engine for running the definitions on inputs in which no Number and
    no non-string [markdown] occurs. *)
Definition sample_engine : Engine :=
  {| number_truthy := fun lit => negb (forallb (fun c => negb (Json.is_digit c) || (c =? 48)%N) lit);
     number_json := fun lit => lit;
     markdown_coercion := fun _ => TruncationThrows;
     error_message := fun e => js "TypeError raised by the engine";
     error_stack := fun e => js "TypeError: raised by the engine\n    at handler" |}.

(** ** Notions used to state and prove the properties *)



Definition blank (s : jsstring) : bool := forallb is_js_space s.


(** The value of the CORS header of a response. *)
Definition allow_origin (r : response) : option jsstring :=
  lookup (js "Access-Control-Allow-Origin") (headers r).

(** A scan of JSON text that only tracks whether it is inside a string
    literal and how many brackets are open. Outside string literals it
    accepts only code units that the JSON grammar uses there. *)
Module Lexical.

Inductive mode := Outside | Inside | Escaped.

Definition structural (c : N) : bool :=
  Json.is_ws c || Json.is_digit c
  || existsb (N.eqb c) (js ",:+-.eEtrufalsn").

Definition next (st : mode * nat) (c : N) : option (mode * nat) :=
  match st with
  | (Outside, d) =>
      if (c =? 34)%N then Some (Inside, d)
      else if ((c =? 123) || (c =? 91))%N then Some (Outside, S d)
      else if ((c =? 125) || (c =? 93))%N then
        match d with
        | O => None
        | S d' => Some (Outside, d')
        end
      else if structural c then Some (Outside, d)
      else None
  | (Inside, d) =>
      if (c =? 34)%N then Some (Outside, d)
      else if (c =? 92)%N then Some (Escaped, d)
      else Some (Inside, d)
  | (Escaped, d) => Some (Inside, d)
  end.

Fixpoint scan (st : mode * nat) (s : jsstring) : option (mode * nat) :=
  match s with
  | [] => Some st
  | c :: r =>
      match next st c with
      | Some st' => scan st' r
      | None => None
      end
  end.

(** A code unit that stands outside string literals and is neither a quote
    nor a bracket. *)
Definition plain (c : N) : bool :=
  structural c
  && negb ((c =? 34) || (c =? 123) || (c =? 91) || (c =? 125) || (c =? 93))%N.

(** Text that leaves the scan where it found it. *)
Definition balanced (s : jsstring) : Prop :=
  scan (Outside, O) s = Some (Outside, O).

(** Balanced text none of whose proper prefixes is balanced. *)
Definition guarded (s : jsstring) : Prop :=
  balanced s
  /\ forall p q, s = p ++ q -> p <> [] -> q <> [] -> ~ balanced p.

(** What a successful [Json.parse_value] has read: white space, then
    balanced text, guarded when the value is an object. *)
Definition value_text (s : jsstring) (v : value) (r : jsstring) : Prop :=
  exists w c,
    s = w ++ c ++ r /\ forallb Json.is_ws w = true /\ balanced c
    /\ (forall o, v = VObj o -> guarded c).

End Lexical.


(** Events that never settle the promise and always find their listener
    or none to miss. *)
Definition quiet (e : emitted) : bool :=
  match e with
  | ReqTimeout | Response _ | ResData _ => true
  | ReqError _ | ResEnd | ResError _ => false
  end.

(** An environment, an event and the request it leads to, for running the
    definitions. *)
Definition sample_key : environment := {| OPENAI_API_KEY := Some (js "sk-test") |}.

Definition sample_edit : event :=
  {| httpMethod := js "POST";
     body := Text (js "{'prompt':'Shorten','markdown':'# Title'}") |}.

Definition sample_request : request :=
  openai_request (js "sk-test")
    (js "{'model':'gpt-4o','messages':[{'role':'system','content':'You are an AI writing assistant that helps edit and improve text.'},{'role':'user','content':'Edit this document based on the request: Shorten\\n\\nDocument: # Title'}],'stream':true,'max_tokens':4000,'temperature':0.3}").

(** A frame of the normalized stream: the sentinel, or the content frame
    of a truthy delta content. *)
Definition frame (E : Engine) (f : jsstring) : Prop :=
  f = js "data: [DONE]\n\n"
  \/ exists c, truthy E c = true
       /\ f = js "data: " ++ stringify E (VObj [(js "content", c)]) ++ js "\n\n".

(** The lines on which the reframer acts. *)
Definition event_lines (chunks : list jsstring) : list jsstring :=
  filter (fun line => startsWith line (js "data: ")) (flat_map split_lines chunks).

(** The code units of a JS string are 16 bits wide. *)
Definition utf16 (s : jsstring) : Prop := Forall (fun c => (c < 65536)%N) s.

(** * Properties *)

(** ** Strings *)

Lemma startsWith_app (s p q : jsstring) :
  startsWith s (p ++ q) = startsWith s p && startsWith (skipn (length p) s) q.
Proof.
  revert s; induction p as [|x p IH]; intros s; simpl.
  - reflexivity.
  - destruct s as [|y s]; simpl.
    + reflexivity.
    + rewrite IH. now rewrite andb_assoc.
Qed.

Lemma startsWith_self_app (p t : jsstring) : startsWith (p ++ t) p = true.
Proof.
  induction p as [|x p IH]; simpl.
  - now destruct t.
  - now rewrite N.eqb_refl.
Qed.

(** A pattern that starts in front of [b] and runs into it. *)
Lemma startsWith_across (a b p : jsstring) :
  startsWith (a ++ b) p = true -> (length a <= length p)%nat ->
  startsWith b (skipn (length a) p) = true.
Proof.
  revert p; induction a as [|x a IH]; intros p H L; simpl in *.
  - exact H.
  - destruct p as [|y p]; simpl in *; [lia|].
    apply andb_true_iff in H as [_ H]. apply IH; [exact H | lia].
Qed.

(** A pattern found inside a prefix is found in the whole. *)
Lemma startsWith_prefix (a b p : jsstring) :
  startsWith a p = true -> startsWith (a ++ b) p = true.
Proof.
  revert a; induction p as [|x p IH]; intros a H.
  - now destruct (a ++ b).
  - destruct a as [|y a]; simpl in *; [discriminate|].
    apply andb_true_iff in H as [H1 H2]. rewrite H1. simpl. now apply IH.
Qed.

Lemma includes_true (s p : jsstring) (i : nat) :
  occurs_at p s i = true -> includes s p = true.
Proof.
  intros H. unfold includes. apply existsb_exists.
  destruct (Nat.le_gt_cases i (length s)) as [L|L].
  - exists i. split; [apply in_seq; lia | exact H].
  - exists (length s). split; [apply in_seq; lia|].
    unfold occurs_at in *. rewrite skipn_all2 in H by lia.
    now rewrite skipn_all.
Qed.

Lemma filter_eqb_seq (k a n : nat) :
  filter (Nat.eqb k) (seq a n)
  = if (a <=? k)%nat && (k <? a + n)%nat then [k] else [].
Proof.
  revert a; induction n as [|n IH]; intros a.
  - cbn [seq filter].
    destruct (a <=? k)%nat eqn:A; cbn [andb]; [|reflexivity].
    destruct (k <? a + 0)%nat eqn:B; [|reflexivity].
    apply Nat.leb_le in A. apply Nat.ltb_lt in B. lia.
  - cbn [seq filter]. rewrite IH.
    destruct (k =? a)%nat eqn:Ek;
    destruct (a <=? k)%nat eqn:A; destruct (S a <=? k)%nat eqn:A';
        destruct (k <? S a + n)%nat eqn:B; destruct (k <? a + S n)%nat eqn:B';
        cbn [andb]; try reflexivity; try (apply Nat.eqb_eq in Ek; subst; reflexivity); exfalso;
        repeat match goal with
          | H : (_ =? _)%nat = true |- _ => apply Nat.eqb_eq in H
          | H : (_ =? _)%nat = false |- _ => apply Nat.eqb_neq in H
          | H : (_ <=? _)%nat = true |- _ => apply Nat.leb_le in H
          | H : (_ <=? _)%nat = false |- _ => apply Nat.leb_gt in H
          | H : (_ <? _)%nat = true |- _ => apply Nat.ltb_lt in H
          | H : (_ <? _)%nat = false |- _ => apply Nat.ltb_ge in H
          end; lia.
Qed.

(** A pattern that occurs at position [k] and nowhere else occurs once. *)
Lemma occurrences_single (p s : jsstring) (k : nat) :
  (k <= length s)%nat ->
  (forall i, (i <= length s)%nat -> occurs_at p s i = Nat.eqb k i) ->
  occurrences p s = 1%nat.
Proof.
  intros K H. unfold occurrences.
  rewrite (filter_ext_in _ (Nat.eqb k)).
  - rewrite filter_eqb_seq. cbn [Nat.leb andb].
    replace (k <? 0 + S (length s))%nat with true by (symmetry; apply Nat.ltb_lt; lia).
    reflexivity.
  - intros i I. apply in_seq in I. apply H. lia.
Qed.

(** ** Token budget *)

Lemma estimateTokens_div (text : jsstring) :
  estimateTokens text = - (- Z.of_nat (length text) / 4).
Proof.
  unfold estimateTokens, Qceiling, Qfloor. cbn. now rewrite Z.mul_1_r.
Qed.

Lemma estimateTokens_bounds (text : jsstring) :
  4 * (estimateTokens text - 1) < Z.of_nat (length text) <= 4 * estimateTokens text.
Proof.
  rewrite estimateTokens_div.
  pose proof (Z.div_mod (- Z.of_nat (length text)) 4 ltac:(lia)).
  pose proof (Z.mod_pos_bound (- Z.of_nat (length text)) 4 ltac:(lia)).
  lia.
Qed.

Lemma over_budget_length (content : jsstring) (maxTokens : Z) :
  estimateTokens content > maxTokens ->
  4 * maxTokens < Z.of_nat (length content).
Proof.
  intros H. pose proof (estimateTokens_bounds content). lia.
Qed.

Lemma substring_head (s : jsstring) (n : Z) :
  n <= Z.of_nat (length s) ->
  substring s 0 (Some n) = firstn (Z.to_nat n) s.
Proof.
  intros H. unfold substring, clamp.
  rewrite Z.max_id, (Z.min_l 0) by lia.
  destruct (Z.le_gt_cases 0 n).
  - rewrite (Z.max_l n), (Z.min_l n), Z.min_l, Z.max_r by lia.
    now rewrite Z.sub_0_r.
  - rewrite (Z.max_r n), (Z.min_l 0 (Z.of_nat _)), Z.min_id, Z.max_id by lia.
    simpl. now replace (Z.to_nat n) with 0%nat by lia.
Qed.

Lemma substring_tail (s : jsstring) (n : Z) :
  n <= Z.of_nat (length s) ->
  substring s (Z.of_nat (length s) - n) None
  = skipn (Z.to_nat (Z.of_nat (length s) - n)) s.
Proof.
  intros H. unfold substring, clamp.
  set (len := Z.of_nat (length s)).
  destruct (Z.le_gt_cases 0 n).
  - rewrite (Z.max_l (len - n)), (Z.min_l (len - n)), Z.min_l, Z.max_r by lia.
    apply firstn_all2. rewrite length_skipn. lia.
  - rewrite (Z.max_l (len - n)), (Z.min_r (len - n)), Z.min_id, Z.max_id by lia.
    rewrite Z.sub_diag. simpl.
    rewrite skipn_all2; [reflexivity | lia].
Qed.

(** ** The truncation marker inside a truncated text *)

Lemma startsWith_within (a b p : jsstring) :
  startsWith (a ++ b) p = true -> (length p <= length a)%nat ->
  startsWith a p = true.
Proof.
  revert a; induction p as [|x p IH]; intros a H L.
  - reflexivity.
  - destruct a as [|y a]; simpl in *; [lia|].
    apply andb_true_iff in H as [H1 H2]. rewrite H1. simpl.
    apply IH; [exact H2 | lia].
Qed.

Lemma includes_false (s p : jsstring) (i : nat) :
  includes s p = false -> occurs_at p s i = false.
Proof.
  intros H. destruct (occurs_at p s i) eqn:O; [|reflexivity].
  apply includes_true in O. congruence.
Qed.

Lemma includes_firstn (s p : jsstring) (n : nat) :
  includes s p = false -> includes (firstn n s) p = false.
Proof.
  intros H. destruct (includes (firstn n s) p) eqn:I; [|reflexivity].
  apply existsb_exists in I as (i & _ & O).
  rewrite <- (includes_false s p i H). unfold occurs_at in *.
  rewrite <- (firstn_skipn n s) at 1. rewrite skipn_app.
  symmetry. now apply startsWith_prefix.
Qed.

Lemma includes_skipn (s p : jsstring) (n : nat) :
  includes s p = false -> includes (skipn n s) p = false.
Proof.
  intros H. destruct (includes (skipn n s) p) eqn:I; [|reflexivity].
  apply existsb_exists in I as (i & _ & O).
  rewrite <- (includes_false s p (i + n) H). unfold occurs_at in *.
  now rewrite skipn_skipn in O.
Qed.

Lemma marker_parts :
  truncation_marker = [LF; LF] ++ marker_text ++ [LF; LF].
Proof. reflexivity. Qed.

(** Where the marker occurs, its text occurs two positions further. *)
Lemma marker_text_at (s : jsstring) (i : nat) :
  occurs_at truncation_marker s i = true ->
  occurs_at marker_text s (2 + i) = true.
Proof.
  unfold occurs_at. rewrite marker_parts, startsWith_app, startsWith_app.
  intros H. apply andb_true_iff in H as [_ H].
  apply andb_true_iff in H as [H _].
  now rewrite skipn_skipn in H.
Qed.

(** The marker overlaps a copy of itself only in its line feeds. *)
Lemma marker_no_overlap (k : nat) (t : jsstring) :
  (1 <= k <= 46)%nat ->
  startsWith (truncation_marker ++ t) (skipn k truncation_marker) = false.
Proof.
  intros K.
  do 47 (destruct k as [|k]; [try lia; reflexivity|]).
  lia.
Qed.

Lemma marker_inside (j : nat) (t : jsstring) :
  (1 <= j <= 48)%nat ->
  startsWith (skipn j (truncation_marker ++ t)) truncation_marker = true ->
  includes t marker_text = true.
Proof.
  intros J H.
  do 47 (destruct j as [|j]; [try lia; discriminate H|]).
  destruct j as [|j].
  - apply (includes_true t marker_text 0). unfold occurs_at.
    change (startsWith t (marker_text ++ [LF; LF]) = true) in H.
    rewrite startsWith_app in H. now apply andb_true_iff in H as [H _].
  - destruct j as [|j]; [|lia].
    destruct t as [|c t]; [discriminate H|].
    apply (includes_true (c :: t) marker_text 1). unfold occurs_at.
    change (startsWith (c :: t) ([LF] ++ marker_text ++ [LF; LF]) = true) in H.
    rewrite startsWith_app in H. apply andb_true_iff in H as [_ H].
    rewrite startsWith_app in H. now apply andb_true_iff in H as [H _].
Qed.

(** Between two texts that do not contain its text, the marker occurs
    once. *)
Lemma marker_once (h t : jsstring) :
  includes h marker_text = false ->
  includes t marker_text = false ->
  occurrences truncation_marker (h ++ truncation_marker ++ t) = 1%nat.
Proof.
  intros Hh Ht.
  apply (occurrences_single _ _ (length h)).
  - rewrite length_app. lia.
  - intros i _. unfold occurs_at.
    destruct (Nat.eqb_spec (length h) i) as [<-|N].
    + rewrite skipn_app, skipn_all, Nat.sub_diag. rewrite skipn_O; cbn [app].
      apply startsWith_self_app.
    + destruct (startsWith (skipn i (h ++ truncation_marker ++ t)) truncation_marker)
        eqn:O; [exfalso|reflexivity].
      destruct (Nat.lt_ge_cases i (length h)) as [L|L].
      * rewrite skipn_app in O.
        replace (i - length h)%nat with 0%nat in O by lia. rewrite skipn_O in O.
        destruct (Nat.le_gt_cases (length (skipn i h)) 46) as [S|S].
        -- apply startsWith_across in O;
             [|rewrite length_skipn in *; change (length truncation_marker) with 49%nat; lia].
           rewrite marker_no_overlap in O; [discriminate|].
           rewrite length_skipn in *. lia.
        -- rewrite marker_parts, startsWith_app, startsWith_app in O.
           apply andb_true_iff in O as [_ O].
           apply andb_true_iff in O as [O _].
           change (length [LF; LF]) with 2%nat in O.
           rewrite skipn_app in O.
           replace (2 - length (skipn i h))%nat with 0%nat in O by lia.
           rewrite skipn_O in O.
           apply startsWith_within in O;
             [|rewrite !length_skipn in *; change (length marker_text) with 45%nat; lia].
           rewrite skipn_skipn in O.
           pose proof (includes_false h marker_text (2 + i) Hh) as F.
           unfold occurs_at in F. congruence.
      * destruct (Nat.le_gt_cases (i - length h) 48) as [S|S].
        -- replace i with ((i - length h) + length h)%nat in O by lia.
           rewrite <- skipn_skipn, skipn_app, skipn_all, Nat.sub_diag in O.
           rewrite skipn_O in O; cbn [app] in O.
           apply marker_inside in O; [congruence | lia].
        -- replace i with ((i - length h - 49) + (49 + length h))%nat in O by lia.
           rewrite <- skipn_skipn in O.
           replace (skipn (49 + length h) (h ++ truncation_marker ++ t)) with t in O.
           ++ pose proof (marker_text_at t _ O) as F.
              rewrite (includes_false t marker_text _ Ht) in F. discriminate.
           ++ rewrite <- skipn_skipn, skipn_app, skipn_all, Nat.sub_diag.
              rewrite skipn_O; cbn [app].
              rewrite skipn_app. change (length truncation_marker) with 49%nat.
              rewrite Nat.sub_diag. reflexivity.
Qed.

(** The budget the source uses, in binary64 arithmetic: the two products
    are the integers of the exact computation, so [Math.floor] leaves
    them as they are. *)
#[warnings="-inexact-float"]
Lemma ieee_portions_of_MAX_CONTENT_TOKENS :
  let maxChars := Uint63.of_Z (MAX_CONTENT_TOKENS * 4) in
  (PrimFloat.eqb (PrimFloat.of_uint63 maxChars * 0.6)%float
     (PrimFloat.of_uint63
        (Uint63.of_Z (Qfloor (inject_Z (MAX_CONTENT_TOKENS * 4) * 0.6)%Q)))
   && PrimFloat.eqb (PrimFloat.of_uint63 maxChars * 0.2)%float
        (PrimFloat.of_uint63
           (Uint63.of_Z (Qfloor (inject_Z (MAX_CONTENT_TOKENS * 4) * 0.2)%Q))))%bool
  = true.
Proof. now vm_compute. Qed.

(** C7. [estimateTokens text] is the ceiling of a quarter of the number of
    code units of [text]: the least integer [t] with [length text <= 4 t].
    It is 0 on the empty string and depends on the length alone. *)
Theorem estimateTokens_ceiling (text : jsstring) :
  let len := Z.of_nat (length text) in
  (4 * (estimateTokens text - 1) < len <= 4 * estimateTokens text)
  /\ estimateTokens text = (len + 3) / 4
  /\ estimateTokens (js "") = 0
  /\ estimateTokens text = estimateTokens (repeat 0%N (length text)).
Proof.
  intros len. pose proof (estimateTokens_bounds text) as B. fold len in B.
  split; [exact B|]. split; [|split].
  - pose proof (Z.div_mod (len + 3) 4 ltac:(lia)).
    pose proof (Z.mod_pos_bound (len + 3) 4 ltac:(lia)). lia.
  - reflexivity.
  - unfold estimateTokens. now rewrite repeat_length.
Qed.

(** C4. Content within the budget is returned unchanged, so the marker
    occurs in the result exactly as often as it did in the content. *)
Theorem truncateContent_within_budget (content : jsstring) (maxTokens : Z) :
  estimateTokens content <= maxTokens ->
  truncateContent content maxTokens = content
  /\ occurrences truncation_marker (truncateContent content maxTokens)
     = occurrences truncation_marker content.
Proof.
  intros H. assert (truncateContent content maxTokens = content) as ->.
  { unfold truncateContent. now apply Z.leb_le in H as ->. }
  split; reflexivity.
Qed.

Lemma truncateContent_within_budget_witness :
  estimateTokens (js "# Title") <= 2
  /\ truncateContent (js "# Title") 2 = js "# Title".
Proof.
  split; [now vm_compute|].
  apply (truncateContent_within_budget (js "# Title") 2). now vm_compute.
Defined.

(** C3 (amended). Content over the budget becomes its first
    [floor(maxTokens*4*0.6)] code units, the marker, and its code units
    from index [length - floor(maxTokens*4*0.2)] on. The marker occurs at
    the junction; it occurs exactly once when the content does not already
    contain the marker's text. *)
Theorem truncateContent_over_budget (content : jsstring) (maxTokens : Z) :
  estimateTokens content > maxTokens ->
  let head := maxTokens * 4 * 6 / 10 in
  let tail := maxTokens * 4 * 2 / 10 in
  truncateContent content maxTokens
  = firstn (Z.to_nat head) content
      ++ truncation_marker
      ++ skipn (Z.to_nat (Z.of_nat (length content) - tail)) content
  /\ occurs_at truncation_marker (truncateContent content maxTokens)
       (Z.to_nat head) = true
  /\ (includes content marker_text = false ->
      occurrences truncation_marker (truncateContent content maxTokens) = 1%nat).
Proof.
  intros H head tail.
  pose proof (over_budget_length content maxTokens H) as L.
  assert (head <= Z.of_nat (length content)) as Lh.
  { unfold head. pose proof (Z.div_mod (maxTokens * 4 * 6) 10 ltac:(lia)).
    pose proof (Z.mod_pos_bound (maxTokens * 4 * 6) 10 ltac:(lia)). lia. }
  assert (tail <= Z.of_nat (length content)) as Lt.
  { unfold tail. pose proof (Z.div_mod (maxTokens * 4 * 2) 10 ltac:(lia)).
    pose proof (Z.mod_pos_bound (maxTokens * 4 * 2) 10 ltac:(lia)). lia. }
  assert (truncateContent content maxTokens
          = firstn (Z.to_nat head) content ++ truncation_marker
              ++ skipn (Z.to_nat (Z.of_nat (length content) - tail)) content) as ->.
  { unfold truncateContent.
    replace (estimateTokens content <=? maxTokens) with false
      by (symmetry; apply Z.leb_gt; lia).
    cbv zeta.
    change (Qfloor (inject_Z (maxTokens * 4) * 0.6)%Q) with head.
    change (Qfloor (inject_Z (maxTokens * 4) * 0.2)%Q) with tail.
    now rewrite substring_head, substring_tail by assumption. }
  split; [reflexivity|]. split.
  - unfold occurs_at.
    replace (Z.to_nat head) with (length (firstn (Z.to_nat head) content)) at 1
      by (rewrite length_firstn; lia).
    rewrite skipn_app, skipn_all, Nat.sub_diag, skipn_O. cbn [app].
    apply startsWith_self_app.
  - intros I. apply marker_once.
    + now apply includes_firstn.
    + now apply includes_skipn.
Qed.

Lemma truncateContent_over_budget_witness :
  estimateTokens (js "0123456789abcdefghijklmnopqrstuvwxyz") > 5
  /\ truncateContent (js "0123456789abcdefghijklmnopqrstuvwxyz") 5
     = js "0123456789ab" ++ truncation_marker ++ js "wxyz"
  /\ occurrences truncation_marker
       (truncateContent (js "0123456789abcdefghijklmnopqrstuvwxyz") 5) = 1%nat.
Proof.
  split; [now vm_compute|].
  destruct (truncateContent_over_budget
              (js "0123456789abcdefghijklmnopqrstuvwxyz") 5 ltac:(now vm_compute))
    as (Eq & _ & Once).
  split; [exact Eq | apply Once; now vm_compute].
Defined.

(** C3 as stated fails: a document that already contains the marker in its
    first part has it twice after truncation. *)
Lemma truncateContent_marker_twice :
  let content := truncation_marker ++ repeat 97%N 100 in
  estimateTokens content > 25
  /\ occurrences truncation_marker (truncateContent content 25) = 2%nat.
Proof. split; now vm_compute. Qed.

(** ** Trimming *)

Lemma blank_app (a b : jsstring) : blank (a ++ b) = blank a && blank b.
Proof. apply forallb_app. Qed.



Lemma trimStart_blank (w s : jsstring) :
  blank w = true -> trimStart (w ++ s) = trimStart s.
Proof.
  induction w as [|c w IH]; cbn [app trimStart blank forallb]; [reflexivity|].
  intros H. apply andb_true_iff in H as [-> H]. now apply IH.
Qed.

Lemma trimStart_tight (s : jsstring) :
  (forall c r, s = c :: r -> is_js_space c = false) -> trimStart s = s.
Proof.
  destruct s as [|c s]; [reflexivity|]. intros H. cbn [trimStart].
  now rewrite (H c s eq_refl).
Qed.

Lemma blank_rev (s : jsstring) : blank (rev s) = blank s.
Proof.
  induction s as [|c s IH]; [reflexivity|].
  cbn [rev]. rewrite blank_app, IH. cbn [blank forallb].
  now rewrite andb_true_r, andb_comm.
Qed.



Lemma trimEnd_blank (s w : jsstring) :
  blank w = true -> trimEnd (s ++ w) = trimEnd s.
Proof.
  intros W. unfold trimEnd. rewrite rev_app_distr, trimStart_blank; [reflexivity|].
  now rewrite blank_rev.
Qed.

Lemma trimEnd_tight (s : jsstring) :
  (forall r c, s = r ++ [c] -> is_js_space c = false) -> trimEnd s = s.
Proof.
  intros H. unfold trimEnd. rewrite trimStart_tight; [apply rev_involutive|].
  intros c r E. apply (H (rev r) c).
  rewrite <- (rev_involutive s), E. reflexivity.
Qed.





(** ** The lexical scan *)

Import Lexical.

Lemma scan_app (st : mode * nat) (a b : jsstring) :
  scan st (a ++ b)
  = match scan st a with
    | Some st' => scan st' b
    | None => None
    end.
Proof.
  revert st; induction a as [|c a IH]; intros st; cbn [scan app].
  - reflexivity.
  - destruct (next st c); [apply IH | reflexivity].
Qed.

Lemma next_lift (m m' : mode) (k k' d : nat) (c : N) :
  next (m, k) c = Some (m', k') ->
  next (m, (k + d)%nat) c = Some (m', (k' + d)%nat).
Proof.
  unfold next. destruct m.
  - destruct (c =? 34)%N; [(intros [= ? ?]; now subst)|].
    destruct ((c =? 123) || (c =? 91))%N; [(intros [= ? ?]; now subst)|].
    destruct ((c =? 125) || (c =? 93))%N.
    + destruct k; [discriminate|]. (intros [= ? ?]; now subst).
    + destruct (structural c); [(intros [= ? ?]; now subst) | discriminate].
  - destruct (c =? 34)%N; [(intros [= ? ?]; now subst)|].
    destruct (c =? 92)%N; (intros [= ? ?]; now subst).
  - (intros [= ? ?]; now subst).
Qed.

Lemma scan_lift (s : jsstring) (m m' : mode) (k k' d : nat) :
  scan (m, k) s = Some (m', k') ->
  scan (m, (k + d)%nat) s = Some (m', (k' + d)%nat).
Proof.
  revert m k; induction s as [|c s IH]; intros m k; cbn [scan].
  - (intros [= ? ?]; now subst).
  - destruct (next (m, k) c) as [[m1 k1]|] eqn:S; [|discriminate].
    intros H. rewrite (next_lift _ _ _ _ d _ S). now apply IH.
Qed.

Lemma balanced_lift (s : jsstring) (d : nat) :
  balanced s -> scan (Outside, d) s = Some (Outside, d).
Proof. intros H. exact (scan_lift s _ _ _ _ d H). Qed.

Lemma balanced_app (a b : jsstring) :
  balanced a -> balanced b -> balanced (a ++ b).
Proof. unfold balanced. intros A B. now rewrite scan_app, A. Qed.

Lemma balanced_nil : balanced [].
Proof. reflexivity. Qed.

Lemma plain_next (c : N) (d : nat) :
  plain c = true -> next (Outside, d) c = Some (Outside, d).
Proof.
  unfold plain, next. intros H. apply andb_true_iff in H as [S H].
  apply negb_true_iff in H. repeat apply orb_false_iff in H as [H ?].
  now rewrite H, H0, H1, H2, H3, S.
Qed.

Lemma plain_balanced (s : jsstring) : forallb plain s = true -> balanced s.
Proof.
  unfold balanced. induction s as [|c s IH]; cbn [scan forallb]; [reflexivity|].
  intros H. apply andb_true_iff in H as [C H]. rewrite plain_next by exact C. now apply IH.
Qed.

Import Json.

Lemma skip_ws_split (s : jsstring) :
  exists w, s = w ++ skip_ws s /\ forallb is_ws w = true.
Proof.
  induction s as [|c s (w & E & W)]; cbn [skip_ws].
  - now exists [].
  - destruct (is_ws c) eqn:C.
    + exists (c :: w). cbn [app forallb]. now rewrite C, <- E.
    + now exists [].
Qed.

Lemma ws_plain (w : jsstring) : forallb is_ws w = true -> forallb plain w = true.
Proof.
  intros H. apply forallb_forall. intros c I.
  pose proof (proj1 (forallb_forall _ _) H c I) as C.
  unfold is_ws in C. unfold plain, structural, is_ws.
  repeat (apply orb_true_iff in C as [C|C]); apply N.eqb_eq in C; now subst.
Qed.

Lemma ws_balanced (w : jsstring) : forallb is_ws w = true -> balanced w.
Proof. intros H. now apply plain_balanced, ws_plain. Qed.

Lemma hex_inside (h a : N) (d : nat) :
  hex_value h = Some a -> next (Inside, d) h = Some (Inside, d).
Proof.
  unfold next. destruct (N.eqb_spec h 34) as [->|_]; [discriminate|].
  destruct (N.eqb_spec h 92) as [->|_]; [discriminate|]. reflexivity.
Qed.

Lemma next_inside_quote (c : N) (d : nat) :
  (c =? 34)%N = true -> next (Inside, d) c = Some (Outside, d).
Proof. unfold next. now intros ->. Qed.

Lemma next_inside_backslash (c : N) (d : nat) :
  (c =? 34)%N = false -> (c =? 92)%N = true ->
  next (Inside, d) c = Some (Escaped, d).
Proof. unfold next. now intros -> ->. Qed.

Lemma next_inside_other (c : N) (d : nat) :
  (c =? 34)%N = false -> (c =? 92)%N = false ->
  next (Inside, d) c = Some (Inside, d).
Proof. unfold next. now intros -> ->. Qed.

Lemma next_escaped (c : N) (d : nat) : next (Escaped, d) c = Some (Inside, d).
Proof. reflexivity. Qed.

Lemma parse_chars_scan (n : nat) :
  forall s, (length s <= n)%nat -> forall str r,
  parse_chars s = Some (str, r) ->
  exists c, s = c ++ r /\ forall d, scan (Inside, d) c = Some (Outside, d).
Proof.
  induction n as [|n IH]; intros s L str r H.
  - destruct s; [discriminate | simpl in L; lia].
  - destruct s as [|c s]; [discriminate|]. cbn [length] in L.
    cbn [parse_chars] in H.
    destruct (c =? 34)%N eqn:Q.
    { injection H as <- <-. exists [c]. split; [reflexivity|].
      intros d. cbn [scan]. now rewrite next_inside_quote. }
    destruct (c =? 92)%N eqn:B.
    { destruct s as [|e r1]; [discriminate|]. cbn [length] in L.
      destruct (e =? 117)%N.
      - destruct r1 as [|h1 [|h2 [|h3 [|h4 r2]]]]; try discriminate.
        cbn [length] in L.
        destruct (hex_value h1) eqn:H1; [|discriminate].
        destruct (hex_value h2) eqn:H2; [|discriminate].
        destruct (hex_value h3) eqn:H3; [|discriminate].
        destruct (hex_value h4) eqn:H4; [|discriminate].
        destruct (parse_chars r2) as [[str' rest]|] eqn:P; [|discriminate].
        injection H as <- <-.
        destruct (IH r2 ltac:(lia) _ _ P) as (c' & -> & S).
        exists (c :: e :: h1 :: h2 :: h3 :: h4 :: c'). split; [reflexivity|].
        intros d. cbn [scan].
        rewrite (next_inside_backslash _ _ Q B), next_escaped.
        rewrite (hex_inside _ _ _ H1), (hex_inside _ _ _ H2),
          (hex_inside _ _ _ H3), (hex_inside _ _ _ H4). apply S.
      - destruct (escape_char e); [|discriminate].
        destruct (parse_chars r1) as [[str' rest]|] eqn:P; [|discriminate].
        injection H as <- <-.
        destruct (IH r1 ltac:(lia) _ _ P) as (c' & -> & S).
        exists (c :: e :: c'). split; [reflexivity|].
        intros d. cbn [scan].
        rewrite (next_inside_backslash _ _ Q B), next_escaped. apply S. }
    destruct (c <? 32)%N; [discriminate|].
    destruct (parse_chars s) as [[str' rest]|] eqn:P; [|discriminate].
    injection H as <- <-.
    destruct (IH s ltac:(lia) _ _ P) as (c' & -> & S).
    exists (c :: c'). split; [reflexivity|].
    intros d. cbn [scan]. rewrite (next_inside_other _ _ Q B). apply S.
Qed.

Lemma digit_plain (c : N) : is_digit c = true -> plain c = true.
Proof.
  intros D. unfold plain, structural. rewrite D, orb_true_r. cbn [orb andb].
  unfold is_digit in D. apply andb_true_iff in D as [D1 D2].
  apply N.leb_le in D1, D2. apply negb_true_iff.
  repeat (apply orb_false_iff; split); apply N.eqb_neq; lia.
Qed.

Lemma span_digits_split (s d r : jsstring) :
  span_digits s = (d, r) -> s = d ++ r /\ forallb plain d = true.
Proof.
  revert d r; induction s as [|c s IH]; intros d r; cbn [span_digits].
  - now intros [= <- <-].
  - destruct (is_digit c) eqn:D.
    + destruct (span_digits s) as [d' r'] eqn:S. intros [= <- <-].
      destruct (IH _ _ eq_refl) as [-> P]. split; [reflexivity|].
      cbn [forallb]. now rewrite digit_plain.
    + now intros [= <- <-].
Qed.

Ltac plain_char C :=
  let H := fresh in
  assert (H := C); repeat (apply orb_true_iff in H as [H|H]);
  apply N.eqb_eq in H; subst; reflexivity.

Lemma parse_int_split (s i r : jsstring) :
  parse_int s = Some (i, r) -> s = i ++ r /\ forallb plain i = true.
Proof.
  unfold parse_int. destruct s as [|c s]; [discriminate|].
  destruct (c =? 48)%N eqn:Z.
  - intros [= <- <-]. apply N.eqb_eq in Z as ->. now split.
  - destruct (is_digit c) eqn:D; [|discriminate].
    destruct (span_digits s) as [d r'] eqn:S. intros [= <- <-].
    destruct (span_digits_split _ _ _ S) as [-> P]. split; [reflexivity|].
    cbn [forallb]. now rewrite digit_plain.
Qed.

Lemma parse_frac_split (s x r : jsstring) :
  parse_frac s = Some (x, r) -> s = x ++ r /\ forallb plain x = true.
Proof.
  unfold parse_frac. destruct s as [|c s]; [now intros [= <- <-]|].
  destruct (c =? 46)%N eqn:Z.
  - destruct (span_digits s) as [d r'] eqn:S.
    destruct (span_digits_split _ _ _ S) as [-> P].
    destruct d; [discriminate|]. intros [= <- <-].
    apply N.eqb_eq in Z as ->. split; [reflexivity|].
    cbn [forallb] in *. now rewrite P.
  - now intros [= <- <-].
Qed.

Lemma parse_sign_split (s x r : jsstring) :
  parse_sign s = (x, r) -> s = x ++ r /\ forallb plain x = true.
Proof.
  unfold parse_sign. destruct s as [|c s]; [now intros [= <- <-]|].
  destruct ((c =? 43) || (c =? 45))%N eqn:Z.
  - intros [= <- <-]. split; [reflexivity|]. cbn [forallb].
    rewrite andb_true_r. plain_char Z.
  - now intros [= <- <-].
Qed.

Lemma parse_exp_split (s x r : jsstring) :
  parse_exp s = Some (x, r) -> s = x ++ r /\ forallb plain x = true.
Proof.
  unfold parse_exp. destruct s as [|c s]; [now intros [= <- <-]|].
  destruct ((c =? 101) || (c =? 69))%N eqn:Z.
  - destruct (parse_sign s) as [sg r1] eqn:G.
    destruct (parse_sign_split _ _ _ G) as [-> Pg].
    destruct (span_digits r1) as [d r'] eqn:S.
    destruct (span_digits_split _ _ _ S) as [-> P].
    destruct d; [discriminate|]. intros [= <- <-].
    split; [cbn [app]; now rewrite <- app_assoc|].
    cbn [forallb]. rewrite forallb_app, Pg, P, andb_true_r. plain_char Z.
  - now intros [= <- <-].
Qed.

Lemma parse_number_split (s lit r : jsstring) :
  parse_number s = Some (lit, r) -> s = lit ++ r /\ forallb plain lit = true.
Proof.
  unfold parse_number.
  assert (exists sg s1, (match s with
                         | c :: r0 => if (c =? 45)%N then ([c], r0) else ([], s)
                         | [] => ([], [])
                         end) = (sg, s1)
                        /\ s = sg ++ s1 /\ forallb plain sg = true)
    as (sg & s1 & -> & -> & Pg).
  { destruct s as [|c s]; [now exists [], []|].
    destruct (c =? 45)%N eqn:Z.
    - exists [c], s. apply N.eqb_eq in Z as ->. now repeat split.
    - now exists [], (c :: s). }
  destruct (parse_int s1) as [[i s2]|] eqn:I; [|discriminate].
  destruct (parse_int_split _ _ _ I) as [-> Pi].
  destruct (parse_frac s2) as [[f s3]|] eqn:F; [|discriminate].
  destruct (parse_frac_split _ _ _ F) as [-> Pf].
  destruct (parse_exp s3) as [[e s4]|] eqn:X; [|discriminate].
  destruct (parse_exp_split _ _ _ X) as [-> Pe].
  intros [= <- <-]. split; [now rewrite <- !app_assoc|].
  now rewrite !forallb_app, Pg, Pi, Pf, Pe.
Qed.

Lemma startsWith_split (s p : jsstring) :
  startsWith s p = true -> s = p ++ skipn (length p) s.
Proof.
  revert s; induction p as [|x p IH]; intros s H; [reflexivity|].
  destruct s as [|y s]; [discriminate|]. cbn [startsWith] in H.
  apply andb_true_iff in H as [X H]. apply N.eqb_eq in X as ->.
  cbn [length skipn app]. now rewrite <- IH.
Qed.

Lemma scan_open_brace (d : nat) (s : jsstring) :
  scan (Outside, d) (123%N :: s) = scan (Outside, S d) s.
Proof. reflexivity. Qed.

(** An object's text: the brackets around balanced text. *)
Lemma guarded_braces (inner : jsstring) :
  balanced inner -> guarded (123%N :: inner ++ [125%N]).
Proof.
  intros B. split.
  - unfold balanced.
    rewrite scan_open_brace, scan_app, (balanced_lift inner 1 B). reflexivity.
  - intros p q E Np Nq Bp.
    destruct p as [|o p]; [congruence|]. injection E as <- E.
    destruct (exists_last Nq) as (q0 & z & ->).
    rewrite app_assoc in E. apply app_inj_tail in E as [E _].
    unfold balanced in B, Bp. rewrite E, scan_app in B.
    rewrite scan_open_brace in Bp.
    destruct (scan (Outside, 0%nat) p) as [[m k]|] eqn:S; [|discriminate].
    apply (scan_lift _ _ _ _ _ 1) in S. cbn [Nat.add] in S.
    rewrite S in Bp. injection Bp as _ Bp. lia.
Qed.

Lemma balanced_brackets (inner : jsstring) :
  balanced inner -> balanced (91%N :: inner ++ [93%N]).
Proof.
  intros B. unfold balanced.
  change (scan (Outside, 0%nat) (91%N :: inner ++ [93%N]))
    with (scan (Outside, 1%nat) (inner ++ [93%N])).
  now rewrite scan_app, (balanced_lift inner 1 B).
Qed.

Lemma balanced_string (cs : jsstring) :
  (forall d, scan (Inside, d) cs = Some (Outside, d)) -> balanced (34%N :: cs).
Proof. intros S. exact (S 0%nat). Qed.

Lemma balanced_plain_char (c : N) : plain c = true -> balanced [c].
Proof. intros P. apply plain_balanced. cbn [forallb]. now rewrite P. Qed.

Ltac list_eq :=
  subst; repeat (cbn [app]; rewrite <- app_assoc); cbn [app]; reflexivity.

Ltac skip_ws_in H s :=
  let w := fresh "w" in
  let E := fresh "E" in
  let W := fresh "W" in
  destruct (skip_ws_split s) as (w & E & W);
  let c := fresh "c" in
  let r := fresh "r" in
  destruct (skip_ws s) as [|c r]; [discriminate H|].

Lemma parse_text (f : nat) :
  (forall s v r, parse_value f s = Some (v, r) -> value_text s v r)
  /\ (forall acc s v r, parse_elements f acc s = Some (v, r) ->
      (exists c, s = c ++ 93%N :: r /\ balanced c) /\ exists l, v = VArr l)
  /\ (forall acc s v r, parse_members f acc s = Some (v, r) ->
      exists c, s = c ++ 125%N :: r /\ balanced c).
Proof.
  induction f as [|f (IHv & IHe & IHm)]; [repeat split; discriminate|].
  split; [|split].
  - intros s v r H. cbn [parse_value] in H.
    skip_ws_in H s.
    destruct (c =? 123)%N eqn:C1.
    { apply N.eqb_eq in C1 as ->. skip_ws_in H r0.
      destruct (c =? 125)%N eqn:C2.
      - apply N.eqb_eq in C2 as ->. injection H as <- <-.
        exists w, (123%N :: w0 ++ [125%N]). split; [list_eq|]. split; [exact W|].
        pose proof (guarded_braces w0 (ws_balanced _ W0)) as G.
        split; [apply G | intros; exact G].
      - destruct (IHm _ _ _ _ H) as (cm & Em & Bm).
        exists w, (123%N :: (w0 ++ cm) ++ [125%N]).
        split; [rewrite E, E0, Em; list_eq|]. split; [exact W|].
        pose proof (guarded_braces (w0 ++ cm)
                      (balanced_app _ _ (ws_balanced _ W0) Bm)) as G.
        split; [apply G | intros; exact G]. }
    destruct (c =? 91)%N eqn:C2.
    { apply N.eqb_eq in C2 as ->. skip_ws_in H r0.
      destruct (c =? 93)%N eqn:C3.
      - apply N.eqb_eq in C3 as ->. injection H as <- <-.
        exists w, (91%N :: w0 ++ [93%N]). split; [list_eq|]. split; [exact W|].
        split; [apply balanced_brackets, ws_balanced, W0 | discriminate].
      - destruct (IHe _ _ _ _ H) as ((ce & Ee & Be) & l & ->).
        exists w, (91%N :: (w0 ++ ce) ++ [93%N]).
        split; [rewrite E, E0, Ee; list_eq|]. split; [exact W|].
        split; [|discriminate].
        apply balanced_brackets, balanced_app; [apply ws_balanced, W0 | exact Be]. }
    destruct (c =? 34)%N eqn:C3.
    { apply N.eqb_eq in C3 as ->.
      destruct (parse_chars r0) as [[str rest]|] eqn:P; [|discriminate].
      injection H as <- <-.
      destruct (parse_chars_scan _ _ (Nat.le_refl _) _ _ P) as (cs & -> & S).
      exists w, (34%N :: cs). split; [list_eq|]. split; [exact W|].
      split; [now apply balanced_string | discriminate]. }
    destruct (startsWith (c :: r0) (js "true")) eqn:T.
    { injection H as <- <-. apply startsWith_split in T.
      exists w, (js "true"). split; [now rewrite E, T at 1|].
      split; [exact W|]. split; [reflexivity | discriminate]. }
    destruct (startsWith (c :: r0) (js "false")) eqn:F.
    { injection H as <- <-. apply startsWith_split in F.
      exists w, (js "false"). split; [now rewrite E, F at 1|].
      split; [exact W|]. split; [reflexivity | discriminate]. }
    destruct (startsWith (c :: r0) (js "null")) eqn:U.
    { injection H as <- <-. apply startsWith_split in U.
      exists w, (js "null"). split; [now rewrite E, U at 1|].
      split; [exact W|]. split; [reflexivity | discriminate]. }
    destruct (parse_number (c :: r0)) as [[lit rest]|] eqn:P; [|discriminate].
    injection H as <- <-. destruct (parse_number_split _ _ _ P) as [El Pl].
    exists w, lit. split; [now rewrite E, El|]. split; [exact W|].
    split; [now apply plain_balanced | discriminate].
  - intros acc s v r H. cbn [parse_elements] in H.
    destruct (parse_value f s) as [[v1 r1]|] eqn:V; [|discriminate].
    destruct (IHv _ _ _ V) as (w & c & Es & W & B & _).
    skip_ws_in H r1.
    destruct (c0 =? 44)%N eqn:C1.
    { apply N.eqb_eq in C1 as ->.
      destruct (IHe _ _ _ _ H) as ((ce & Ee & Be) & l & ->).
      split; [|now exists l].
      exists (w ++ c ++ w0 ++ [44%N] ++ ce). split; [rewrite Es, E, Ee; list_eq|].
      repeat apply balanced_app; try assumption; try now apply ws_balanced.
      now apply balanced_plain_char. }
    destruct (c0 =? 93)%N eqn:C2; [|discriminate].
    apply N.eqb_eq in C2 as ->. injection H as <- <-.
    split; [|now eexists].
    exists (w ++ c ++ w0). split; [rewrite Es, E; list_eq|].
    repeat apply balanced_app; try assumption; now apply ws_balanced.
  - intros acc s v r H. cbn [parse_members] in H.
    skip_ws_in H s.
    destruct (c =? 34)%N eqn:C1; [|discriminate].
    apply N.eqb_eq in C1 as ->.
    destruct (parse_chars r0) as [[k r1]|] eqn:P; [|discriminate].
    destruct (parse_chars_scan _ _ (Nat.le_refl _) _ _ P) as (ck & Ek & S).
    skip_ws_in H r1.
    destruct (c =? 58)%N eqn:C2; [|discriminate].
    apply N.eqb_eq in C2 as ->.
    destruct (parse_value f r2) as [[v1 r3]|] eqn:V; [|discriminate].
    destruct (IHv _ _ _ V) as (w2 & cv & Ev & W2 & Bv & _).
    skip_ws_in H r3.
    assert (balanced (w ++ (34%N :: ck) ++ w0 ++ [58%N] ++ w2 ++ cv ++ w1)) as Bk.
    { repeat apply balanced_app; try assumption; try now apply ws_balanced.
      - now apply balanced_string.
      - now apply balanced_plain_char. }
    destruct (c =? 44)%N eqn:C3.
    { apply N.eqb_eq in C3 as ->.
      destruct (IHm _ _ _ _ H) as (cm & Em & Bm).
      exists ((w ++ (34%N :: ck) ++ w0 ++ [58%N] ++ w2 ++ cv ++ w1) ++ [44%N] ++ cm).
      split; [rewrite E, Ek, E0, Ev, E1, Em; list_eq|].
      apply balanced_app; [exact Bk|].
      apply balanced_app; [now apply balanced_plain_char | exact Bm]. }
    destruct (c =? 125)%N eqn:C4; [|discriminate].
    apply N.eqb_eq in C4 as ->. injection H as <- <-.
    exists (w ++ (34%N :: ck) ++ w0 ++ [58%N] ++ w2 ++ cv ++ w1).
    split; [rewrite E, Ek, E0, Ev, E1; list_eq | exact Bk].
Qed.

(** ** The fuel of [Json.parse] *)

Lemma skip_ws_length (s : jsstring) : (length (skip_ws s) <= length s)%nat.
Proof.
  destruct (skip_ws_split s) as (w & E & _). rewrite E at 2.
  rewrite length_app. lia.
Qed.

Lemma parse_chars_length (s str r : jsstring) :
  parse_chars s = Some (str, r) -> (length r < length s)%nat.
Proof.
  intros P. destruct (parse_chars_scan _ _ (Nat.le_refl _) _ _ P) as (c & -> & S).
  rewrite length_app. destruct c; [|cbn [length]; lia].
  specialize (S 0%nat). discriminate S.
Qed.

Lemma parse_value_length (f : nat) (s : jsstring) (v : value) (r : jsstring) :
  parse_value f s = Some (v, r) -> (length r <= length s)%nat.
Proof.
  intros P. destruct (proj1 (parse_text f) _ _ _ P) as (w & c & -> & _).
  rewrite !length_app. lia.
Qed.

(** A parse that succeeds with some fuel succeeds, with the same result,
    with any fuel above twice the length of the text. *)
Lemma parse_fuel (f : nat) :
  (forall s x, parse_value f s = Some x ->
     forall f', (2 * length s < f')%nat -> parse_value f' s = Some x)
  /\ (forall acc s x, parse_elements f acc s = Some x ->
     forall f', (2 * length s + 1 < f')%nat -> parse_elements f' acc s = Some x)
  /\ (forall acc s x, parse_members f acc s = Some x ->
     forall f', (2 * length s + 1 < f')%nat -> parse_members f' acc s = Some x).
Proof.
  induction f as [|f (IHv & IHe & IHm)]; [repeat split; discriminate|].
  split; [|split].
  - intros s x H [|f'] L; [lia|]. revert H. cbn [parse_value].
    pose proof (skip_ws_length s) as Ls.
    destruct (skip_ws s) as [|c r]; [discriminate|]. cbn [length] in Ls.
    destruct (c =? 123)%N.
    { pose proof (skip_ws_length r) as Lr.
      destruct (skip_ws r) as [|c' r']; [discriminate|].
      destruct (c' =? 125)%N; [exact (fun H => H)|].
      intros H. apply (IHm _ _ _ H). lia. }
    destruct (c =? 91)%N.
    { pose proof (skip_ws_length r) as Lr.
      destruct (skip_ws r) as [|c' r']; [discriminate|].
      destruct (c' =? 93)%N; [exact (fun H => H)|].
      intros H. apply (IHe _ _ _ H). lia. }
    exact (fun H => H).
  - intros acc s x H [|f'] L; [lia|]. revert H. cbn [parse_elements].
    destruct (parse_value f s) as [[v r]|] eqn:V; [|discriminate].
    pose proof (parse_value_length _ _ _ _ V) as Lv.
    rewrite (IHv _ _ V f') by lia.
    pose proof (skip_ws_length r) as Lr.
    destruct (skip_ws r) as [|c r']; [discriminate|]. cbn [length] in Lr.
    destruct (c =? 44)%N; [|exact (fun H => H)].
    intros H. apply (IHe _ _ _ H). lia.
  - intros acc s x H [|f'] L; [lia|]. revert H. cbn [parse_members].
    pose proof (skip_ws_length s) as Ls.
    destruct (skip_ws s) as [|q r]; [discriminate|]. cbn [length] in Ls.
    destruct (q =? 34)%N; [|discriminate].
    destruct (parse_chars r) as [[k r1]|] eqn:P; [|discriminate].
    pose proof (parse_chars_length _ _ _ P) as Lk.
    pose proof (skip_ws_length r1) as L1.
    destruct (skip_ws r1) as [|c r2]; [discriminate|]. cbn [length] in L1.
    destruct (c =? 58)%N; [|discriminate].
    destruct (parse_value f r2) as [[v r3]|] eqn:V; [|discriminate].
    pose proof (parse_value_length _ _ _ _ V) as Lv.
    rewrite (IHv _ _ V f') by lia.
    pose proof (skip_ws_length r3) as L3.
    destruct (skip_ws r3) as [|c' r4]; [discriminate|]. cbn [length] in L3.
    destruct (c' =? 44)%N; [|exact (fun H => H)].
    intros H. apply (IHm _ _ _ H). lia.
Qed.

(** [Json.parse] gives every result that some amount of fuel gives: its
    own fuel is never what makes it fail. *)
Lemma parse_value_fuel (f : nat) (text : jsstring) (v : value) (rest : jsstring) :
  parse_value f text = Some (v, rest) -> skip_ws rest = [] ->
  Json.parse text = Some v.
Proof.
  intros P W. unfold Json.parse.
  rewrite (proj1 (parse_fuel f) _ _ P) by lia. now rewrite W.
Qed.

(** ** Parsed text is balanced *)

Lemma jseqb_eq (a b : jsstring) : jseqb a b = true <-> a = b.
Proof.
  revert b; induction a as [|x a IH]; intros [|y b]; cbn [jseqb];
    try (split; [discriminate | congruence]); [tauto|].
  rewrite andb_true_iff, N.eqb_eq, IH. split; [intros [-> ->] | intros [= -> ->]]; auto.
Qed.







(** ** Two scans of the same text, one started inside a string literal *)


(** ** Fragments of an event line *)

Section Fragments.

Variable E : Engine.

Lemma reframe_line_other (sr line : jsstring) :
  startsWith line (js "data: ") = false -> reframe_line E sr line = sr.
Proof. unfold reframe_line. now intros ->. Qed.

Lemma reframe_line_throws (sr line : jsstring) :
  trim (skipn 6 line) <> js "[DONE]" ->
  trim (skipn 6 line) = [] \/ Json.parse (trim (skipn 6 line)) = None ->
  reframe_line E sr line = sr.
Proof.
  intros D H. unfold reframe_line.
  destruct (startsWith line (js "data: ")); [|reflexivity]. cbv zeta.
  destruct (jseqb (trim (skipn 6 line)) (js "[DONE]")) eqn:J.
  { now apply jseqb_eq in J. }
  destruct H as [-> | H]; [reflexivity|].
  destruct (trim (skipn 6 line)); [reflexivity|].
  unfold JSON_parse. now rewrite H.
Qed.



End Fragments.

Lemma blank_false_app (a b : jsstring) : blank b = false -> blank (a ++ b) = false.
Proof. intros H. rewrite blank_app, H. apply andb_false_r. Qed.






(** ** Lines and chunks *)





Section Stream.

Variable E : Engine.


(** The chunks are reframed one after the other, each from its own lines. *)
Lemma reframe_app (chunks more : list jsstring) :
  reframe E (chunks ++ more) = fold_left (on_data E) more (reframe E chunks).
Proof. unfold reframe. apply fold_left_app. Qed.

Lemma reframe_lines (chunks : list jsstring) (sr : jsstring) :
  fold_left (on_data E) chunks sr
  = fold_left (reframe_line E) (flat_map split_lines chunks) sr.
Proof.
  revert sr; induction chunks as [|c chunks IH]; intros sr; [reflexivity|].
  cbn [fold_left flat_map]. rewrite fold_left_app, IH. reflexivity.
Qed.



End Stream.

(** ** The stream reframer *)






Lemma settle_streaming (E : Engine) (chunks : list jsstring) (rest : list emitted) :
  forall sr n,
  settle E (Streaming sr n) (map ResData chunks ++ ResEnd :: rest)
  = Some (stream_response (fold_left (on_data E) chunks sr)).
Proof.
  induction chunks as [|c chunks IH]; intros sr n; [reflexivity|].
  cbn [map app settle step fold_left]. apply IH.
Qed.



(** ** The handler *)

Section HandlerFacts.

Variable E : Engine.

Lemma non_blank_string (site : throw_site) (s : jsstring) :
  non_blank E site (Some (VStr s)) = Ok (negb (jseqb (trim s) [])).
Proof. now destruct s. Qed.

Lemma jseqb_nil_false (s : jsstring) : s <> [] -> jseqb s [] = false.
Proof. now destruct s. Qed.

Lemma jseqb_nil_true (s : jsstring) : s = [] -> jseqb s [] = true.
Proof. now intros ->. Qed.

Lemma body_text (ev : event) (text : jsstring) (v : value) :
  body ev = Text text -> Json.parse text = Some v ->
  match body ev with
  | Text (c :: s) => c :: s
  | _ => js "{}"
  end = text.
Proof. intros -> P. destruct text; [discriminate P | reflexivity]. Qed.

Lemma destructure_fields (v x : value) (name : jsstring) :
  get v name = Some x ->
  destructure v = Ok (get v (js "prompt"), get v (js "markdown"),
                      get v (js "selectedText")).
Proof. now destruct v. Qed.

Lemma json_response_cors (status : Z) (fields : list (jsstring * value)) :
  allow_origin (json_response E status fields) = Some (js "*").
Proof. reflexivity. Qed.

Lemma step_cors (l l' : listening) (e : emitted) (r : response) :
  step E l e = (l', Some r) -> allow_origin r = Some (js "*").
Proof.
  destruct l, e; cbn [step]; intros H; try discriminate H;
    injection H as _ <-; reflexivity.
Qed.

Lemma settle_cors (es : list emitted) :
  forall l r, settle E l es = Some r -> allow_origin r = Some (js "*").
Proof.
  induction es as [|e es IH]; intros l r; cbn [settle]; [discriminate|].
  destruct (step E l e) as [l' [r'|]] eqn:S.
  - intros [= <-]. exact (step_cors _ _ _ _ S).
  - apply IH.
Qed.

Lemma exchange_cors (up : upstream) (r : response) :
  exchange E up = Some r -> allow_origin r = Some (js "*").
Proof.
  unfold exchange. destruct (write_throws up).
  - now intros [= <-].
  - apply settle_cors.
Qed.

Lemma handler_try_cors (env : environment) (ev : event) (r : response) :
  handler_try E env ev = Ok (Respond r) -> allow_origin r = Some (js "*").
Proof.
  unfold handler_try, bind. intros H.
  repeat match type of H with
         | context [match ?x with _ => _ end] =>
             destruct x; try discriminate H
         end;
    injection H as <-; reflexivity.
Qed.

End HandlerFacts.

(** One invocation for each way out of the handler, with the status it
    answers: preflight, body that is not JSON, blank prompt, missing
    credential, upstream status other than 200, error on the response
    stream, error on the request, payload that cannot be written, success,
    and the outer [catch]. *)
Lemma one_invocation_per_branch :
  map (fun i : environment * event * upstream =>
         let '(env, ev, up) := i in
         option_map statusCode (snd (handler sample_engine env ev up)))
    (let key := {| OPENAI_API_KEY := Some (js "sk-test") |} in
     let post (text : string) :=
       {| httpMethod := js "POST"; body := Text (js text) |} in
     let edit := post "{'prompt':'Shorten','markdown':'# Title'}"%string in
     let net es := {| write_throws := None; emits := es |} in
     let reset := {| err_name := js "Error"; err_message := js "socket hang up";
                     err_code := Some (js "ECONNRESET") |} in
     [(key, {| httpMethod := js "OPTIONS"; body := Absent |}, net []);
      (key, post "{'prompt':"%string, net []);
      (key, post "{'prompt':'  ','markdown':'# Title'}"%string, net []);
      ({| OPENAI_API_KEY := None |}, edit, net []);
      (key, edit, net [Response 429; ResData (js "slow down"); ResEnd]);
      (key, edit, net [Response 200; ResData (js "data: [DONE]"); ResError reset]);
      (key, edit, net [ReqTimeout; ReqError reset]);
      (key, edit, {| write_throws := Some reset; emits := [] |});
      (key, edit, net [Response 200; ResData (js "data: [DONE]\n\n"); ResEnd]);
      (key, post "null"%string, net [])])
  = [Some 200; Some 400; Some 400; Some 500; Some 429; Some 500; Some 500;
     Some 500; Some 200; Some 500].
Proof. reflexivity. Qed.

(** C8. Whatever the invocation and whatever the upstream does, the
    response the handler returns or settles with carries the header
    [Access-Control-Allow-Origin: *]. *)
Theorem every_response_allows_origin (E : Engine) (env : environment)
  (ev : event) (up : upstream) (r : response) :
  snd (handler E env ev up) = Some r ->
  lookup (js "Access-Control-Allow-Origin") (headers r) = Some (js "*").
Proof.
  unfold handler.
  destruct (jseqb (httpMethod ev) (js "OPTIONS")); [now intros [= <-]|].
  destruct (handler_try E env ev) as [[r'|rq]|] eqn:H; cbn [snd].
  - intros [= <-]. exact (handler_try_cors _ _ _ _ H).
  - apply exchange_cors.
  - now intros [= <-].
Qed.

Lemma every_response_allows_origin_witness :
  lookup (js "Access-Control-Allow-Origin")
    (headers
       {| statusCode := 429;
          headers := [(js "Content-Type", js "application/json");
                      (js "Access-Control-Allow-Origin", js "*")];
          response_body :=
            js "{'error':'OpenAI API error','statusCode':429,'details':'slow down'}" |})
  = Some (js "*").
Proof.
  apply (every_response_allows_origin sample_engine
           {| OPENAI_API_KEY := Some (js "sk-test") |}
           {| httpMethod := js "POST";
              body := Text (js "{'prompt':'Shorten','markdown':'# Title'}") |}
           {| write_throws := None;
              emits := [Response 429; ResData (js "slow down"); ResEnd] |}).
  reflexivity.
Defined.

(** C6. A request whose body is valid JSON with a [prompt] that is empty
    or all white space is answered 400 with an [error] field, and no
    outbound request is made. *)
Theorem blank_prompt_rejected (E : Engine) (env : environment) (ev : event)
  (up : upstream) (text : jsstring) (v : value) (p : jsstring) :
  jseqb (httpMethod ev) (js "OPTIONS") = false ->
  body ev = Text text -> Json.parse text = Some v ->
  get v (js "prompt") = Some (VStr p) -> trim p = [] ->
  handler E env ev up
  = ([], Some {| statusCode := 400;
                 headers := [(js "Content-Type", js "application/json");
                             (js "Access-Control-Allow-Origin", js "*")];
                 response_body := js "{'error':'Prompt is required'}" |}).
Proof.
  intros M B P G T. unfold handler, handler_try. rewrite M.
  rewrite (body_text ev text v B P), P.
  rewrite (destructure_fields v _ _ G). cbn [bind]. rewrite G.
  rewrite non_blank_string, T. reflexivity.
Qed.

Lemma blank_prompt_rejected_witness :
  handler sample_engine {| OPENAI_API_KEY := Some (js "sk-test") |}
    {| httpMethod := js "POST";
       body := Text (js "{'prompt':'   ','markdown':'# Title'}") |}
    {| write_throws := None; emits := [] |}
  = ([], Some {| statusCode := 400;
                 headers := [(js "Content-Type", js "application/json");
                             (js "Access-Control-Allow-Origin", js "*")];
                 response_body := js "{'error':'Prompt is required'}" |}).
Proof.
  apply (blank_prompt_rejected sample_engine _ _ _
           (js "{'prompt':'   ','markdown':'# Title'}")
           (VObj [(js "prompt", VStr (js "   ")); (js "markdown", VStr (js "# Title"))])
           (js "   "));
    reflexivity.
Defined.

(** C5 (amended). A request whose body is valid JSON with a non-blank
    string [prompt], a string [markdown] and a [selectedText] that is
    absent or a string is answered, when the credential is absent, with 500
    and the error [Server configuration error]; no outbound request is
    made. *)
Theorem missing_credential (E : Engine) (env : environment) (ev : event)
  (up : upstream) (text : jsstring) (v : value) (p m : jsstring) :
  jseqb (httpMethod ev) (js "OPTIONS") = false ->
  body ev = Text text -> Json.parse text = Some v ->
  get v (js "prompt") = Some (VStr p) -> trim p <> [] ->
  get v (js "markdown") = Some (VStr m) ->
  (get v (js "selectedText") = None
   \/ exists t, get v (js "selectedText") = Some (VStr t)) ->
  OPENAI_API_KEY env = None ->
  handler E env ev up
  = ([], Some {| statusCode := 500;
                 headers := [(js "Content-Type", js "application/json");
                             (js "Access-Control-Allow-Origin", js "*")];
                 response_body :=
                   js "{'error':'Server configuration error','details':'API key not configured'}" |}).
Proof.
  intros M B P G T Gm Gs K. unfold handler, handler_try. rewrite M.
  rewrite (body_text ev text v B P), P.
  rewrite (destructure_fields v _ _ G). cbn [bind]. rewrite G, Gm.
  rewrite non_blank_string, (jseqb_nil_false _ T). cbn [negb process_markdown bind].
  destruct Gs as [-> | (t & ->)].
  - cbn [non_blank interpolate bind]. now rewrite K.
  - rewrite non_blank_string. cbn [interpolate bind]. now rewrite K.
Qed.

Lemma missing_credential_witness :
  handler sample_engine {| OPENAI_API_KEY := None |}
    {| httpMethod := js "POST";
       body := Text (js "{'prompt':'Shorten','markdown':'# Title'}") |}
    {| write_throws := None; emits := [] |}
  = ([], Some {| statusCode := 500;
                 headers := [(js "Content-Type", js "application/json");
                             (js "Access-Control-Allow-Origin", js "*")];
                 response_body :=
                   js "{'error':'Server configuration error','details':'API key not configured'}" |}).
Proof.
  apply (missing_credential sample_engine _ _ _
           (js "{'prompt':'Shorten','markdown':'# Title'}")
           (VObj [(js "prompt", VStr (js "Shorten")); (js "markdown", VStr (js "# Title"))])
           (js "Shorten") (js "# Title"));
    try reflexivity.
  - discriminate.
  - now left.
Defined.

(** C5 as stated fails: with a valid body and a non-blank prompt but no
    [markdown], the handler answers [Internal server error] before it
    looks at the credential. *)
Lemma missing_credential_without_markdown :
  handler sample_engine {| OPENAI_API_KEY := None |}
    {| httpMethod := js "POST"; body := Text (js "{'prompt':'Shorten'}") |}
    {| write_throws := None; emits := [] |}
  = ([], Some {| statusCode := 500;
                 headers := [(js "Content-Type", js "application/json");
                             (js "Access-Control-Allow-Origin", js "*")];
                 response_body :=
                   stringify sample_engine
                     (VObj [(js "error", VStr (js "Internal server error"));
                            (js "details", VStr (error_message sample_engine (TypeError MarkdownLength)));
                            (js "errorName", VStr (js "TypeError"));
                            (js "stack", VStr (error_stack sample_engine (TypeError MarkdownLength)))]) |}).
Proof. reflexivity. Qed.

(** C9. A request whose body is valid JSON with a non-blank [prompt] and
    no [markdown] is not answered 400: reading [text.length] throws a
    TypeError, and the outer [catch] answers 500 with the error
    [Internal server error] and the error's message, name and stack. *)
Theorem missing_markdown_internal_error (E : Engine) (env : environment)
  (ev : event) (up : upstream) (text : jsstring) (v : value) (p : jsstring) :
  jseqb (httpMethod ev) (js "OPTIONS") = false ->
  body ev = Text text -> Json.parse text = Some v ->
  get v (js "prompt") = Some (VStr p) -> trim p <> [] ->
  get v (js "markdown") = None ->
  process_markdown E (get v (js "markdown")) = Throw (TypeError MarkdownLength)
  /\ handler E env ev up
  = ([], Some {| statusCode := 500;
                 headers := [(js "Content-Type", js "application/json");
                             (js "Access-Control-Allow-Origin", js "*")];
                 response_body :=
                   stringify E
                     (VObj [(js "error", VStr (js "Internal server error"));
                            (js "details", VStr (error_message E (TypeError MarkdownLength)));
                            (js "errorName", VStr (js "TypeError"));
                            (js "stack", VStr (error_stack E (TypeError MarkdownLength)))]) |}).
Proof.
  intros M B P G T Gm. split; [now rewrite Gm|].
  unfold handler, handler_try. rewrite M.
  rewrite (body_text ev text v B P), P.
  rewrite (destructure_fields v _ _ G). cbn [bind]. rewrite G, Gm.
  rewrite non_blank_string, (jseqb_nil_false _ T). reflexivity.
Qed.

Lemma missing_markdown_internal_error_witness :
  handler sample_engine {| OPENAI_API_KEY := Some (js "sk-test") |}
    {| httpMethod := js "POST"; body := Text (js "{'prompt':'Shorten'}") |}
    {| write_throws := None; emits := [] |}
  = ([], Some {| statusCode := 500;
                 headers := [(js "Content-Type", js "application/json");
                             (js "Access-Control-Allow-Origin", js "*")];
                 response_body :=
                   js "{'error':'Internal server error','details':'TypeError raised by the engine','errorName':'TypeError','stack':'TypeError: raised by the engine\\n    at handler'}" |}).
Proof.
  apply (missing_markdown_internal_error sample_engine _ _ _
           (js "{'prompt':'Shorten'}")
           (VObj [(js "prompt", VStr (js "Shorten"))])
           (js "Shorten"));
    try reflexivity.
  discriminate.
Defined.

(** C10. A missing, [null] or empty body is read as the text of an empty
    object, which parses; the handler then answers 400 with the error
    [Prompt is required], not the invalid-JSON error. *)
Theorem empty_body_prompt_required (E : Engine) (env : environment)
  (ev : event) (up : upstream) :
  jseqb (httpMethod ev) (js "OPTIONS") = false ->
  body ev = Absent \/ body ev = Null \/ body ev = Text [] ->
  Json.parse (js "{}") = Some (VObj [])
  /\ handler E env ev up
     = ([], Some {| statusCode := 400;
                    headers := [(js "Content-Type", js "application/json");
                                (js "Access-Control-Allow-Origin", js "*")];
                    response_body := js "{'error':'Prompt is required'}" |}).
Proof.
  intros M B. split; [reflexivity|].
  unfold handler, handler_try. rewrite M.
  destruct B as [-> | [-> | ->]]; reflexivity.
Qed.

Lemma empty_body_prompt_required_witness :
  handler sample_engine {| OPENAI_API_KEY := Some (js "sk-test") |}
    {| httpMethod := js "POST"; body := Null |}
    {| write_throws := None; emits := [] |}
  = ([], Some {| statusCode := 400;
                 headers := [(js "Content-Type", js "application/json");
                             (js "Access-Control-Allow-Origin", js "*")];
                 response_body := js "{'error':'Prompt is required'}" |}).
Proof.
  apply (empty_body_prompt_required sample_engine
           {| OPENAI_API_KEY := Some (js "sk-test") |}
           {| httpMethod := js "POST"; body := Null |}
           {| write_throws := None; emits := [] |}).
  - reflexivity.
  - right. now left.
Defined.

(** * Further properties *)

(** ** The size of a truncated text *)

Lemma truncateContent_length (content : jsstring) (maxTokens : Z) :
  estimateTokens content > maxTokens -> 0 <= maxTokens ->
  Z.of_nat (length (truncateContent content maxTokens))
  = maxTokens * 4 * 6 / 10 + 49 + maxTokens * 4 * 2 / 10.
Proof.
  intros H P.
  pose proof (over_budget_length content maxTokens H) as L.
  pose proof (Z.div_mod (maxTokens * 4 * 6) 10 ltac:(lia)).
  pose proof (Z.mod_pos_bound (maxTokens * 4 * 6) 10 ltac:(lia)).
  pose proof (Z.div_mod (maxTokens * 4 * 2) 10 ltac:(lia)).
  pose proof (Z.mod_pos_bound (maxTokens * 4 * 2) 10 ltac:(lia)).
  unfold truncateContent.
  replace (estimateTokens content <=? maxTokens) with false
    by (symmetry; apply Z.leb_gt; lia).
  cbv zeta.
  change (Qfloor (inject_Z (maxTokens * 4) * 0.6)%Q) with (maxTokens * 4 * 6 / 10).
  change (Qfloor (inject_Z (maxTokens * 4) * 0.2)%Q) with (maxTokens * 4 * 2 / 10).
  rewrite substring_head, substring_tail by lia.
  rewrite !length_app, length_firstn, length_skipn.
  change (length truncation_marker) with 49%nat. lia.
Qed.

Lemma truncated_estimate (content : jsstring) (maxTokens : Z) :
  61 <= maxTokens ->
  estimateTokens (truncateContent content maxTokens) <= maxTokens.
Proof.
  intros P. destruct (Z.le_gt_cases (estimateTokens content) maxTokens) as [H|H].
  - unfold truncateContent. apply Z.leb_le in H as H'. now rewrite H'.
  - assert (estimateTokens content > maxTokens) as H' by lia.
    pose proof (truncateContent_length content maxTokens H' ltac:(lia)) as E.
    pose proof (estimateTokens_bounds (truncateContent content maxTokens)) as B.
    pose proof (Z.div_mod (maxTokens * 4 * 6) 10 ltac:(lia)).
    pose proof (Z.mod_pos_bound (maxTokens * 4 * 6) 10 ltac:(lia)).
    pose proof (Z.div_mod (maxTokens * 4 * 2) 10 ltac:(lia)).
    pose proof (Z.mod_pos_bound (maxTokens * 4 * 2) 10 ltac:(lia)).
    lia.
Qed.

(** X1. With a budget of at least 61 tokens the result of [truncateContent]
    is within the budget and no longer than the content. *)
Theorem truncateContent_fits (content : jsstring) (maxTokens : Z) :
  61 <= maxTokens ->
  estimateTokens (truncateContent content maxTokens) <= maxTokens
  /\ (length (truncateContent content maxTokens) <= length content)%nat.
Proof.
  intros P. split; [now apply truncated_estimate|].
  destruct (Z.le_gt_cases (estimateTokens content) maxTokens) as [H|H].
  - unfold truncateContent. apply Z.leb_le in H. rewrite H. lia.
  - assert (estimateTokens content > maxTokens) as H' by lia.
    pose proof (truncateContent_length content maxTokens H' ltac:(lia)) as E.
    pose proof (over_budget_length content maxTokens H') as L.
    pose proof (Z.div_mod (maxTokens * 4 * 6) 10 ltac:(lia)).
    pose proof (Z.mod_pos_bound (maxTokens * 4 * 6) 10 ltac:(lia)).
    pose proof (Z.div_mod (maxTokens * 4 * 2) 10 ltac:(lia)).
    pose proof (Z.mod_pos_bound (maxTokens * 4 * 2) 10 ltac:(lia)).
    lia.
Qed.

Lemma truncateContent_fits_witness :
  estimateTokens (truncateContent (repeat 97%N 400) 61) <= 61
  /\ (length (truncateContent (repeat 97%N 400) 61) <= length (repeat 97%N 400))%nat.
Proof. apply (truncateContent_fits (repeat 97%N 400) 61). lia. Defined.

(** X2. With a budget below 61 tokens the marker alone outweighs what the
    slices leave free: content over the budget is still over it after
    truncation. *)
Theorem truncateContent_small_budget (content : jsstring) (maxTokens : Z) :
  0 <= maxTokens <= 60 -> estimateTokens content > maxTokens ->
  estimateTokens (truncateContent content maxTokens) > maxTokens.
Proof.
  intros P H.
  pose proof (truncateContent_length content maxTokens H ltac:(lia)) as E.
  pose proof (estimateTokens_bounds (truncateContent content maxTokens)) as B.
  pose proof (Z.div_mod (maxTokens * 4 * 6) 10 ltac:(lia)).
  pose proof (Z.mod_pos_bound (maxTokens * 4 * 6) 10 ltac:(lia)).
  pose proof (Z.div_mod (maxTokens * 4 * 2) 10 ltac:(lia)).
  pose proof (Z.mod_pos_bound (maxTokens * 4 * 2) 10 ltac:(lia)).
  lia.
Qed.

Lemma truncateContent_small_budget_witness :
  estimateTokens (truncateContent (repeat 97%N 241) 60) > 60.
Proof.
  apply (truncateContent_small_budget (repeat 97%N 241) 60); [lia | now vm_compute].
Defined.

(** X3. With a budget of at least 61 tokens truncation is idempotent: a
    truncated text is within the budget and is returned unchanged. *)
Theorem truncateContent_idempotent (content : jsstring) (maxTokens : Z) :
  61 <= maxTokens ->
  truncateContent (truncateContent content maxTokens) maxTokens
  = truncateContent content maxTokens.
Proof.
  intros P. pose proof (truncated_estimate content maxTokens P) as F.
  unfold truncateContent at 1. apply Z.leb_le in F. now rewrite F.
Qed.

Lemma truncateContent_idempotent_witness :
  truncateContent (truncateContent (repeat 97%N 400) 61) 61
  = truncateContent (repeat 97%N 400) 61.
Proof. apply (truncateContent_idempotent (repeat 97%N 400) 61). lia. Defined.

(** ** The upstream exchange *)

Section ExchangeFacts.

Variable E : Engine.

Lemma handler_exchange (env : environment) (ev : event) (up : upstream)
  (rq : request) :
  fst (handler E env ev up) = [rq] ->
  handler E env ev up = ([rq], exchange E up).
Proof.
  unfold handler.
  destruct (jseqb (httpMethod ev) (js "OPTIONS")); [discriminate|].
  destruct (handler_try E env ev) as [[r|rq']|]; try discriminate.
  cbn [fst]. now intros [= ->].
Qed.

Lemma settle_error_body (chunks : list jsstring) (rest : list emitted) (status : Z) :
  forall errorBody,
  settle E (ErrorBody status errorBody) (map ResData chunks ++ ResEnd :: rest)
  = Some (json_response E status
            [(js "error", VStr (js "OpenAI API error"));
             (js "statusCode", VNum (decimal status));
             (js "details", VStr (errorBody ++ concat chunks))]).
Proof.
  induction chunks as [|c chunks IH]; intros errorBody.
  - cbn [map app settle step concat]. now rewrite app_nil_r.
  - cbn [map app settle step concat]. rewrite IH. now rewrite <- app_assoc.
Qed.

Lemma step_quiet (l : listening) (e : emitted) :
  quiet e = true -> l <> Crashed ->
  exists l', step E l e = (l', None) /\ l' <> Crashed.
Proof.
  intros Q N. destruct e; try discriminate Q; destruct l; try congruence;
    cbn [step]; eexists; (split; [reflexivity|]); try discriminate.
  now destruct (status =? 200).
Qed.

Lemma settle_quiet (pre : list emitted) :
  Forall (fun e => quiet e = true) pre ->
  forall l es, l <> Crashed ->
  exists l', l' <> Crashed /\ settle E l (pre ++ es) = settle E l' es.
Proof.
  induction 1 as [|e pre Q _ IH]; intros l es N.
  - now exists l.
  - destruct (step_quiet l e Q N) as (l1 & S & N1).
    destruct (IH l1 es N1) as (l' & N' & R).
    exists l'. split; [exact N'|]. cbn [app settle]. now rewrite S.
Qed.

Lemma settle_first (es more : list emitted) :
  forall l r, settle E l es = Some r -> settle E l (es ++ more) = Some r.
Proof.
  induction es as [|e es IH]; intros l r; cbn [app settle]; [discriminate|].
  destruct (step E l e) as [l' [r'|]]; [exact (fun H => H) | apply IH].
Qed.

End ExchangeFacts.

(** X4. Once the handler has made its request and the upstream answers 200,
    the promise settles on [end] with status 200 and the reframed buffer,
    whatever the chunks hold: a line that cannot be decoded never turns
    into an error response. *)
Theorem success_stream_always_200 (E : Engine) (env : environment) (ev : event)
  (up : upstream) (rq : request) (chunks : list jsstring) (rest : list emitted) :
  fst (handler E env ev up) = [rq] ->
  write_throws up = None ->
  emits up = Response 200 :: map ResData chunks ++ ResEnd :: rest ->
  handler E env ev up
  = ([rq],
     Some {| statusCode := 200;
             headers := [(js "Content-Type", js "text/event-stream");
                         (js "Access-Control-Allow-Origin", js "*");
                         (js "Cache-Control", js "no-cache")];
             response_body := reframe E chunks |}).
Proof.
  intros R W T. rewrite (handler_exchange E env ev up rq R).
  unfold exchange. rewrite W, T.
  change (settle E NoResponse (Response 200 :: map ResData chunks ++ ResEnd :: rest))
    with (settle E (Streaming [] 0) (map ResData chunks ++ ResEnd :: rest)).
  now rewrite settle_streaming.
Qed.

Lemma success_stream_always_200_witness :
  handler sample_engine sample_key sample_edit
    {| write_throws := None;
       emits := [Response 200;
                 ResData (js "data: {'choices':\n: ping\ndata: nonsense");
                 ResEnd] |}
  = ([sample_request],
     Some {| statusCode := 200;
             headers := [(js "Content-Type", js "text/event-stream");
                         (js "Access-Control-Allow-Origin", js "*");
                         (js "Cache-Control", js "no-cache")];
             response_body := [] |}).
Proof.
  apply (success_stream_always_200 sample_engine sample_key sample_edit _
           sample_request
           [js "data: {'choices':\n: ping\ndata: nonsense"] []);
    reflexivity.
Defined.

(** X5. A status other than 200 is passed through: on [end] the promise
    settles with that status and a JSON body whose [details] is the
    concatenation of the chunks received. *)
Theorem upstream_error_passed_through (E : Engine) (env : environment)
  (ev : event) (up : upstream) (rq : request) (status : Z)
  (chunks : list jsstring) (rest : list emitted) :
  fst (handler E env ev up) = [rq] ->
  write_throws up = None ->
  status <> 200 ->
  emits up = Response status :: map ResData chunks ++ ResEnd :: rest ->
  handler E env ev up
  = ([rq],
     Some {| statusCode := status;
             headers := [(js "Content-Type", js "application/json");
                         (js "Access-Control-Allow-Origin", js "*")];
             response_body :=
               stringify E
                 (VObj [(js "error", VStr (js "OpenAI API error"));
                        (js "statusCode", VNum (decimal status));
                        (js "details", VStr (concat chunks))]) |}).
Proof.
  intros R W N T. rewrite (handler_exchange E env ev up rq R).
  unfold exchange. rewrite W, T. cbn [settle step].
  apply Z.eqb_neq in N. rewrite N.
  now rewrite settle_error_body.
Qed.

Lemma upstream_error_passed_through_witness :
  handler sample_engine sample_key sample_edit
    {| write_throws := None;
       emits := [Response 429; ResData (js "{'error':"); ResData (js "'rate'}"); ResEnd] |}
  = ([sample_request],
     Some {| statusCode := 429;
             headers := [(js "Content-Type", js "application/json");
                         (js "Access-Control-Allow-Origin", js "*")];
             response_body :=
               js "{'error':'OpenAI API error','statusCode':429,'details':'{\\'error\\':\\'rate\\'}'}" |}).
Proof.
  apply (upstream_error_passed_through sample_engine sample_key sample_edit _
           sample_request 429 [js "{'error':"; js "'rate'}"] []);
    try reflexivity.
  discriminate.
Defined.

(** X6. An error on the request settles the promise with 500 and the
    error [Request failed], with the error's message, its name and, when
    it has one, its code, whenever only timeouts, the response head and
    data chunks came before it: the frames gathered so far are not sent. *)
Theorem request_error_fails_request (E : Engine) (env : environment)
  (ev : event) (up : upstream) (rq : request) (pre rest : list emitted)
  (err : js_error) :
  fst (handler E env ev up) = [rq] ->
  write_throws up = None ->
  Forall (fun e => quiet e = true) pre ->
  emits up = pre ++ ReqError err :: rest ->
  handler E env ev up
  = ([rq],
     Some {| statusCode := 500;
             headers := [(js "Content-Type", js "application/json");
                         (js "Access-Control-Allow-Origin", js "*")];
             response_body :=
               stringify E
                 (VObj ([(js "error", VStr (js "Request failed"));
                         (js "details", VStr (err_message err));
                         (js "errorName", VStr (err_name err))]
                        ++ optional (js "errorCode") (err_code err))) |}).
Proof.
  intros R W Q T. rewrite (handler_exchange E env ev up rq R).
  unfold exchange. rewrite W, T.
  destruct (settle_quiet E pre Q NoResponse (ReqError err :: rest) ltac:(discriminate))
    as (l & N & ->).
  destruct l; [reflexivity | reflexivity | reflexivity | congruence].
Qed.

Lemma request_error_fails_request_witness :
  handler sample_engine sample_key sample_edit
    {| write_throws := None;
       emits := [Response 200; ResData (js "data: [DONE]"); ReqTimeout;
                 ReqError {| err_name := js "Error"; err_message := js "socket hang up";
                             err_code := Some (js "ECONNRESET") |};
                 ResEnd] |}
  = ([sample_request],
     Some {| statusCode := 500;
             headers := [(js "Content-Type", js "application/json");
                         (js "Access-Control-Allow-Origin", js "*")];
             response_body :=
               js "{'error':'Request failed','details':'socket hang up','errorName':'Error','errorCode':'ECONNRESET'}" |}).
Proof.
  apply (request_error_fails_request sample_engine sample_key sample_edit _
           sample_request [Response 200; ResData (js "data: [DONE]"); ReqTimeout]
           [ResEnd]
           {| err_name := js "Error"; err_message := js "socket hang up";
              err_code := Some (js "ECONNRESET") |});
    try reflexivity.
  repeat constructor.
Defined.

(** X7. Timeouts, the response head and data chunks alone never settle the
    promise: without an [end] or an [error] event the handler gives no
    response, and a timeout by itself is not an answer. *)
Theorem no_terminal_event_no_response (E : Engine) (env : environment)
  (ev : event) (up : upstream) (rq : request) :
  fst (handler E env ev up) = [rq] ->
  write_throws up = None ->
  Forall (fun e => quiet e = true) (emits up) ->
  handler E env ev up = ([rq], None).
Proof.
  intros R W Q. rewrite (handler_exchange E env ev up rq R).
  unfold exchange. rewrite W.
  destruct (settle_quiet E (emits up) Q NoResponse [] ltac:(discriminate))
    as (l & _ & S).
  rewrite app_nil_r in S. now rewrite S.
Qed.

Lemma no_terminal_event_no_response_witness :
  handler sample_engine sample_key sample_edit
    {| write_throws := None;
       emits := [Response 200; ResData (js "data: [DONE]\n\n"); ReqTimeout] |}
  = ([sample_request], None).
Proof.
  apply (no_terminal_event_no_response sample_engine sample_key sample_edit _
           sample_request); try reflexivity.
  repeat constructor.
Defined.

(** X8. The promise settles once: the response it has settled with is not
    changed by anything the upstream emits afterwards. *)
Theorem first_settlement_stands (E : Engine) (env : environment) (ev : event)
  (w : option js_error) (es more : list emitted) (r : response) :
  snd (handler E env ev {| write_throws := w; emits := es |}) = Some r ->
  handler E env ev {| write_throws := w; emits := es ++ more |}
  = handler E env ev {| write_throws := w; emits := es |}.
Proof.
  unfold handler.
  destruct (jseqb (httpMethod ev) (js "OPTIONS")); [reflexivity|].
  destruct (handler_try E env ev) as [[r'|rq]|]; try reflexivity.
  cbn [snd]. unfold exchange. cbn [write_throws emits].
  destruct w; [reflexivity|].
  intros S. now rewrite (settle_first E es more _ _ S), S.
Qed.

Lemma first_settlement_stands_witness :
  handler sample_engine sample_key sample_edit
    {| write_throws := None;
       emits := [Response 200; ResEnd]
                ++ [ReqError {| err_name := js "Error"; err_message := js "aborted";
                                err_code := None |}] |}
  = handler sample_engine sample_key sample_edit
      {| write_throws := None; emits := [Response 200; ResEnd] |}.
Proof.
  apply (first_settlement_stands sample_engine sample_key sample_edit None
           [Response 200; ResEnd] _ (stream_response [])).
  reflexivity.
Defined.

(** X9. When writing the request throws, the promise settles with 500
    and the error [Failed to send request], whatever the upstream emits
    afterwards. *)
Theorem write_failure_answered (E : Engine) (env : environment) (ev : event)
  (up : upstream) (rq : request) (writeError : js_error) :
  fst (handler E env ev up) = [rq] ->
  write_throws up = Some writeError ->
  handler E env ev up
  = ([rq],
     Some {| statusCode := 500;
             headers := [(js "Content-Type", js "application/json");
                         (js "Access-Control-Allow-Origin", js "*")];
             response_body :=
               stringify E
                 (VObj [(js "error", VStr (js "Failed to send request"));
                        (js "details", VStr (err_message writeError))]) |}).
Proof.
  intros R W. rewrite (handler_exchange E env ev up rq R).
  unfold exchange. now rewrite W.
Qed.

Lemma write_failure_answered_witness :
  handler sample_engine sample_key sample_edit
    {| write_throws := Some {| err_name := js "Error";
                               err_message := js "write after end";
                               err_code := None |};
       emits := [Response 200; ResData (js "data: [DONE]"); ResEnd] |}
  = ([sample_request],
     Some {| statusCode := 500;
             headers := [(js "Content-Type", js "application/json");
                         (js "Access-Control-Allow-Origin", js "*")];
             response_body :=
               js "{'error':'Failed to send request','details':'write after end'}" |}).
Proof.
  apply (write_failure_answered sample_engine sample_key sample_edit _
           sample_request
           {| err_name := js "Error"; err_message := js "write after end";
              err_code := None |});
    reflexivity.
Defined.

Lemma settle_streaming_error (E : Engine) (chunks : list jsstring)
  (rest : list emitted) (err : js_error) :
  forall sr n,
  settle E (Streaming sr n) (map ResData chunks ++ ResError err :: rest)
  = Some (json_response E 500
            [(js "error", VStr (js "OpenAI API error"));
             (js "details", VStr (err_message err));
             (js "errorName", VStr (err_name err))]).
Proof.
  induction chunks as [|c chunks IH]; intros sr n; [reflexivity|].
  cbn [map app settle step]. apply IH.
Qed.

(** X10. An error on the stream of a 200 response settles the promise
    with 500 and the error [OpenAI API error]: the frames gathered so far
    are not sent. *)
Theorem stream_error_discards_buffer (E : Engine) (env : environment)
  (ev : event) (up : upstream) (rq : request) (chunks : list jsstring)
  (rest : list emitted) (err : js_error) :
  fst (handler E env ev up) = [rq] ->
  write_throws up = None ->
  emits up = Response 200 :: map ResData chunks ++ ResError err :: rest ->
  handler E env ev up
  = ([rq],
     Some {| statusCode := 500;
             headers := [(js "Content-Type", js "application/json");
                         (js "Access-Control-Allow-Origin", js "*")];
             response_body :=
               stringify E
                 (VObj [(js "error", VStr (js "OpenAI API error"));
                        (js "details", VStr (err_message err));
                        (js "errorName", VStr (err_name err))]) |}).
Proof.
  intros R W T. rewrite (handler_exchange E env ev up rq R).
  unfold exchange. rewrite W, T.
  change (settle E NoResponse
            (Response 200 :: map ResData chunks ++ ResError err :: rest))
    with (settle E (Streaming [] 0) (map ResData chunks ++ ResError err :: rest)).
  now rewrite settle_streaming_error.
Qed.

Lemma stream_error_discards_buffer_witness :
  handler sample_engine sample_key sample_edit
    {| write_throws := None;
       emits := [Response 200;
                 ResData (js "data: {'choices':[{'delta':{'content':'hi'}}]}\n\n");
                 ResError {| err_name := js "Error"; err_message := js "aborted";
                             err_code := Some (js "ECONNRESET") |};
                 ResEnd] |}
  = ([sample_request],
     Some {| statusCode := 500;
             headers := [(js "Content-Type", js "application/json");
                         (js "Access-Control-Allow-Origin", js "*")];
             response_body :=
               js "{'error':'OpenAI API error','details':'aborted','errorName':'Error'}" |}).
Proof.
  apply (stream_error_discards_buffer sample_engine sample_key sample_edit _
           sample_request
           [js "data: {'choices':[{'delta':{'content':'hi'}}]}\n\n"] [ResEnd]
           {| err_name := js "Error"; err_message := js "aborted";
              err_code := Some (js "ECONNRESET") |});
    reflexivity.
Defined.

(** ** The ways out of the handler *)

Section HandlerBranches.

Variable E : Engine.

Lemma destructure_not_null (v : value) :
  v <> VNull ->
  destructure v = Ok (get v (js "prompt"), get v (js "markdown"),
                      get v (js "selectedText")).
Proof. destruct v; [congruence | reflexivity ..]. Qed.

Lemma body_text_nonempty (ev : event) (text : jsstring) :
  body ev = Text text -> text <> [] ->
  match body ev with
  | Text (c :: s) => c :: s
  | _ => js "{}"
  end = text.
Proof. intros -> N. destruct text; [congruence | reflexivity]. Qed.

Lemma handler_try_call (env : environment) (ev : event) (rq : request) :
  handler_try E env ev = Ok (Call rq) ->
  exists key bodyPayload,
    OPENAI_API_KEY env = Some key /\ key <> []
    /\ rq = openai_request key bodyPayload.
Proof.
  unfold handler_try, bind.
  destruct (Json.parse _) as [parsedBody|]; [|discriminate].
  destruct (destructure parsedBody) as [[[prompt markdown] selectedText]|];
    [|discriminate].
  destruct (non_blank E PromptTrim prompt) as [[|]|]; cbn [negb];
    [|discriminate ..].
  destruct (process_markdown E markdown) as [processedMarkdown|]; [|discriminate].
  destruct (non_blank E SelectedTextTrim selectedText) as [selected|];
    [|discriminate].
  destruct (interpolate E processedMarkdown) as [document|]; [|discriminate].
  destruct (OPENAI_API_KEY env) as [[|c key]|]; [discriminate | | discriminate].
  intros [= <-]. eexists _, _. split; [reflexivity|]. split; [discriminate|].
  reflexivity.
Qed.

End HandlerBranches.

(** X11. A request of method [OPTIONS] is answered 200 with an empty body
    and the three CORS headers, without reading the body, the environment
    or the network. *)
Theorem preflight_answered (E : Engine) (env : environment) (ev : event)
  (up : upstream) :
  httpMethod ev = js "OPTIONS" ->
  handler E env ev up
  = ([], Some {| statusCode := 200;
                 headers := [(js "Access-Control-Allow-Origin", js "*");
                             (js "Access-Control-Allow-Methods", js "POST, OPTIONS");
                             (js "Access-Control-Allow-Headers",
                              js "Content-Type, Authorization")];
                 response_body := [] |}).
Proof. intros M. unfold handler. now rewrite M. Qed.

Lemma preflight_answered_witness :
  handler sample_engine {| OPENAI_API_KEY := None |}
    {| httpMethod := js "OPTIONS"; body := Text (js "not json") |}
    {| write_throws := None; emits := [Response 200; ResEnd] |}
  = ([], Some {| statusCode := 200;
                 headers := [(js "Access-Control-Allow-Origin", js "*");
                             (js "Access-Control-Allow-Methods", js "POST, OPTIONS");
                             (js "Access-Control-Allow-Headers",
                              js "Content-Type, Authorization")];
                 response_body := [] |}).
Proof.
  apply (preflight_answered sample_engine {| OPENAI_API_KEY := None |}
           {| httpMethod := js "OPTIONS"; body := Text (js "not json") |}).
  reflexivity.
Defined.

(** X12. A non-empty body that is not JSON is answered 400 with the error
    [Invalid JSON in request body]; no outbound request is made. *)
Theorem invalid_json_rejected (E : Engine) (env : environment) (ev : event)
  (up : upstream) (text : jsstring) :
  jseqb (httpMethod ev) (js "OPTIONS") = false ->
  body ev = Text text -> text <> [] -> Json.parse text = None ->
  handler E env ev up
  = ([], Some {| statusCode := 400;
                 headers := [(js "Content-Type", js "application/json");
                             (js "Access-Control-Allow-Origin", js "*")];
                 response_body := js "{'error':'Invalid JSON in request body'}" |}).
Proof.
  intros M B N P. unfold handler, handler_try. rewrite M.
  now rewrite (body_text_nonempty ev text B N), P.
Qed.

Lemma invalid_json_rejected_witness :
  handler sample_engine sample_key
    {| httpMethod := js "POST"; body := Text (js "{'prompt':'Shorten',}") |}
    {| write_throws := None; emits := [] |}
  = ([], Some {| statusCode := 400;
                 headers := [(js "Content-Type", js "application/json");
                             (js "Access-Control-Allow-Origin", js "*")];
                 response_body := js "{'error':'Invalid JSON in request body'}" |}).
Proof.
  apply (invalid_json_rejected sample_engine sample_key _ _
           (js "{'prompt':'Shorten',}"));
    try reflexivity.
  discriminate.
Defined.

(** X13. A body that parses to anything but [null] and has no [prompt], or
    a [prompt] that is [null] or [false], is answered 400 with the error
    [Prompt is required]: so is every body that is a JSON number, string,
    boolean or array. *)
Theorem absent_prompt_rejected (E : Engine) (env : environment) (ev : event)
  (up : upstream) (text : jsstring) (v : value) :
  jseqb (httpMethod ev) (js "OPTIONS") = false ->
  body ev = Text text -> Json.parse text = Some v -> v <> VNull ->
  get v (js "prompt") = None \/ get v (js "prompt") = Some VNull
  \/ get v (js "prompt") = Some (VBool false) ->
  handler E env ev up
  = ([], Some {| statusCode := 400;
                 headers := [(js "Content-Type", js "application/json");
                             (js "Access-Control-Allow-Origin", js "*")];
                 response_body := js "{'error':'Prompt is required'}" |}).
Proof.
  intros M B P N G. unfold handler, handler_try. rewrite M.
  rewrite (body_text ev text v B P), P, (destructure_not_null v N). cbn [bind].
  destruct G as [-> | [-> | ->]]; reflexivity.
Qed.

Lemma absent_prompt_rejected_witness :
  handler sample_engine sample_key
    {| httpMethod := js "POST"; body := Text (js "['Shorten','# Title']") |}
    {| write_throws := None; emits := [] |}
  = ([], Some {| statusCode := 400;
                 headers := [(js "Content-Type", js "application/json");
                             (js "Access-Control-Allow-Origin", js "*")];
                 response_body := js "{'error':'Prompt is required'}" |}).
Proof.
  apply (absent_prompt_rejected sample_engine sample_key _ _
           (js "['Shorten','# Title']")
           (VArr [VStr (js "Shorten"); VStr (js "# Title")]));
    try reflexivity.
  - discriminate.
  - now left.
Defined.

(** X14. A body that parses to [null] is not answered 400: destructuring
    it throws a TypeError and the outer [catch] answers 500 with the error
    [Internal server error]. *)
Theorem null_body_internal_error (E : Engine) (env : environment) (ev : event)
  (up : upstream) (text : jsstring) :
  jseqb (httpMethod ev) (js "OPTIONS") = false ->
  body ev = Text text -> Json.parse text = Some VNull ->
  handler E env ev up
  = ([], Some {| statusCode := 500;
                 headers := [(js "Content-Type", js "application/json");
                             (js "Access-Control-Allow-Origin", js "*")];
                 response_body :=
                   stringify E
                     (VObj [(js "error", VStr (js "Internal server error"));
                            (js "details", VStr (error_message E (TypeError DestructureNull)));
                            (js "errorName", VStr (js "TypeError"));
                            (js "stack", VStr (error_stack E (TypeError DestructureNull)))]) |}).
Proof.
  intros M B P. unfold handler, handler_try. rewrite M.
  now rewrite (body_text ev text VNull B P), P.
Qed.

Lemma null_body_internal_error_witness :
  handler sample_engine sample_key
    {| httpMethod := js "POST"; body := Text (js " null ") |}
    {| write_throws := None; emits := [] |}
  = ([], Some (catch_all sample_engine (TypeError DestructureNull))).
Proof.
  apply (null_body_internal_error sample_engine sample_key _ _ (js " null "));
    reflexivity.
Defined.

(** X15. A [prompt] that is [true], an array or an object passes the
    truthiness test and has no [trim] method: the request is answered 500
    by the outer [catch], not 400. *)
Theorem unusable_prompt_internal_error (E : Engine) (env : environment)
  (ev : event) (up : upstream) (text : jsstring) (v p : value) :
  jseqb (httpMethod ev) (js "OPTIONS") = false ->
  body ev = Text text -> Json.parse text = Some v ->
  get v (js "prompt") = Some p ->
  p = VBool true \/ (exists l, p = VArr l) \/ (exists o, p = VObj o) ->
  handler E env ev up
  = ([], Some {| statusCode := 500;
                 headers := [(js "Content-Type", js "application/json");
                             (js "Access-Control-Allow-Origin", js "*")];
                 response_body :=
                   stringify E
                     (VObj [(js "error", VStr (js "Internal server error"));
                            (js "details", VStr (error_message E (TypeError PromptTrim)));
                            (js "errorName", VStr (js "TypeError"));
                            (js "stack", VStr (error_stack E (TypeError PromptTrim)))]) |}).
Proof.
  intros M B P G C. unfold handler, handler_try. rewrite M.
  rewrite (body_text ev text v B P), P, (destructure_fields v _ _ G). cbn [bind].
  rewrite G. destruct C as [-> | [(l & ->) | (o & ->)]]; reflexivity.
Qed.

Lemma unusable_prompt_internal_error_witness :
  handler sample_engine sample_key
    {| httpMethod := js "POST";
       body := Text (js "{'prompt':['Shorten'],'markdown':'# Title'}") |}
    {| write_throws := None; emits := [] |}
  = ([], Some (catch_all sample_engine (TypeError PromptTrim))).
Proof.
  apply (unusable_prompt_internal_error sample_engine sample_key _ _
           (js "{'prompt':['Shorten'],'markdown':'# Title'}")
           (VObj [(js "prompt", VArr [VStr (js "Shorten")]);
                  (js "markdown", VStr (js "# Title"))])
           (VArr [VStr (js "Shorten")]));
    try reflexivity.
  right. left. now eexists.
Defined.



(** X17. A [selectedText] that is [true], an array or an object has no
    [trim] method either: with a usable prompt and a string [markdown] the
    request is answered 500 by the outer [catch]. *)
Theorem unusable_selection_internal_error (E : Engine) (env : environment)
  (ev : event) (up : upstream) (text : jsstring) (v t : value) (p m : jsstring) :
  jseqb (httpMethod ev) (js "OPTIONS") = false ->
  body ev = Text text -> Json.parse text = Some v ->
  get v (js "prompt") = Some (VStr p) -> trim p <> [] ->
  get v (js "markdown") = Some (VStr m) ->
  get v (js "selectedText") = Some t ->
  t = VBool true \/ (exists l, t = VArr l) \/ (exists o, t = VObj o) ->
  handler E env ev up
  = ([], Some {| statusCode := 500;
                 headers := [(js "Content-Type", js "application/json");
                             (js "Access-Control-Allow-Origin", js "*")];
                 response_body :=
                   stringify E
                     (VObj [(js "error", VStr (js "Internal server error"));
                            (js "details", VStr (error_message E (TypeError SelectedTextTrim)));
                            (js "errorName", VStr (js "TypeError"));
                            (js "stack", VStr (error_stack E (TypeError SelectedTextTrim)))]) |}).
Proof.
  intros M B P G T Gm Gs C. unfold handler, handler_try. rewrite M.
  rewrite (body_text ev text v B P), P, (destructure_fields v _ _ G). cbn [bind].
  rewrite G, Gm, Gs, non_blank_string, (jseqb_nil_false _ T).
  cbn [negb process_markdown bind].
  destruct C as [-> | [(l & ->) | (o & ->)]]; reflexivity.
Qed.

Lemma unusable_selection_internal_error_witness :
  handler sample_engine sample_key
    {| httpMethod := js "POST";
       body := Text (js "{'prompt':'Shorten','markdown':'# Title','selectedText':{'from':0}}") |}
    {| write_throws := None; emits := [] |}
  = ([], Some (catch_all sample_engine (TypeError SelectedTextTrim))).
Proof.
  apply (unusable_selection_internal_error sample_engine sample_key _ _
           (js "{'prompt':'Shorten','markdown':'# Title','selectedText':{'from':0}}")
           (VObj [(js "prompt", VStr (js "Shorten")); (js "markdown", VStr (js "# Title"));
                  (js "selectedText", VObj [(js "from", VNum (js "0"))])])
           (VObj [(js "from", VNum (js "0"))])
           (js "Shorten") (js "# Title"));
    try reflexivity.
  - discriminate.
  - right. right. now eexists.
Defined.

(** X18. A credential that is the empty string counts as absent: the
    request is answered 500 with the error [Server configuration error]
    and no outbound request is made. *)
Theorem empty_credential (E : Engine) (env : environment) (ev : event)
  (up : upstream) (text : jsstring) (v : value) (p m : jsstring) :
  jseqb (httpMethod ev) (js "OPTIONS") = false ->
  body ev = Text text -> Json.parse text = Some v ->
  get v (js "prompt") = Some (VStr p) -> trim p <> [] ->
  get v (js "markdown") = Some (VStr m) ->
  (get v (js "selectedText") = None
   \/ exists t, get v (js "selectedText") = Some (VStr t)) ->
  OPENAI_API_KEY env = Some [] ->
  handler E env ev up
  = ([], Some {| statusCode := 500;
                 headers := [(js "Content-Type", js "application/json");
                             (js "Access-Control-Allow-Origin", js "*")];
                 response_body :=
                   js "{'error':'Server configuration error','details':'API key not configured'}" |}).
Proof.
  intros M B P G T Gm Gs K. unfold handler, handler_try. rewrite M.
  rewrite (body_text ev text v B P), P.
  rewrite (destructure_fields v _ _ G). cbn [bind]. rewrite G, Gm.
  rewrite non_blank_string, (jseqb_nil_false _ T). cbn [negb process_markdown bind].
  destruct Gs as [-> | (t & ->)].
  - cbn [non_blank interpolate bind]. now rewrite K.
  - rewrite non_blank_string. cbn [interpolate bind]. now rewrite K.
Qed.

Lemma empty_credential_witness :
  handler sample_engine {| OPENAI_API_KEY := Some [] |} sample_edit
    {| write_throws := None; emits := [] |}
  = ([], Some {| statusCode := 500;
                 headers := [(js "Content-Type", js "application/json");
                             (js "Access-Control-Allow-Origin", js "*")];
                 response_body :=
                   js "{'error':'Server configuration error','details':'API key not configured'}" |}).
Proof.
  apply (empty_credential sample_engine _ sample_edit _
           (js "{'prompt':'Shorten','markdown':'# Title'}")
           (VObj [(js "prompt", VStr (js "Shorten")); (js "markdown", VStr (js "# Title"))])
           (js "Shorten") (js "# Title"));
    try reflexivity.
  - discriminate.
  - now left.
Defined.

(** X19. The handler makes at most one outbound request, and only with a
    non-empty credential: the request is a POST to the completion
    endpoint whose [Authorization] header is [Bearer ] followed by that
    credential. *)
Theorem one_authorized_request (E : Engine) (env : environment) (ev : event)
  (up : upstream) :
  fst (handler E env ev up) = []
  \/ exists key bodyPayload,
       OPENAI_API_KEY env = Some key /\ key <> []
       /\ fst (handler E env ev up)
          = [{| hostname := js "api.openai.com";
                path := js "/v1/chat/completions";
                method := js "POST";
                request_headers := [(js "Content-Type", js "application/json");
                                    (js "Authorization", js "Bearer " ++ key)];
                bodyPayload := bodyPayload |}].
Proof.
  unfold handler.
  destruct (jseqb (httpMethod ev) (js "OPTIONS")); [now left|].
  destruct (handler_try E env ev) as [[r|rq]|] eqn:H; [now left| |now left].
  right. destruct (handler_try_call E env ev rq H) as (key & bp & K & N & ->).
  now exists key, bp.
Qed.



(** ** The request sent upstream *)






(** ** The buffer of the reframer *)

Section Buffer.

Variable E : Engine.

Lemma reframe_line_append (sr line : jsstring) :
  reframe_line E sr line = sr ++ reframe_line E [] line.
Proof.
  unfold reframe_line.
  destruct (startsWith line (js "data: ")); [|now rewrite app_nil_r]. cbv zeta.
  destruct (jseqb (trim (skipn 6 line)) (js "[DONE]")); [reflexivity|].
  destruct (trim (skipn 6 line)) as [|c data]; [now rewrite app_nil_r|].
  destruct (parsed <- JSON_parse (c :: data) ;; delta_content parsed)
    as [[content|]|]; try now rewrite app_nil_r.
  destruct (truthy E content); [reflexivity | now rewrite app_nil_r].
Qed.

Lemma fold_reframe_append (ls : list jsstring) (sr : jsstring) :
  fold_left (reframe_line E) ls sr = sr ++ fold_left (reframe_line E) ls [].
Proof.
  revert sr; induction ls as [|l ls IH]; intros sr; cbn [fold_left].
  - now rewrite app_nil_r.
  - rewrite IH, (IH (reframe_line E [] l)), reframe_line_append.
    now rewrite app_assoc.
Qed.

Lemma reframe_line_frame (line : jsstring) :
  reframe_line E [] line = [] \/ frame E (reframe_line E [] line).
Proof.
  unfold reframe_line.
  destruct (startsWith line (js "data: ")); [|now left]. cbv zeta.
  destruct (jseqb (trim (skipn 6 line)) (js "[DONE]")); [right; now left|].
  destruct (trim (skipn 6 line)) as [|c data]; [now left|].
  destruct (parsed <- JSON_parse (c :: data) ;; delta_content parsed)
    as [[content|]|]; try now left.
  destruct (truthy E content) eqn:T; [|now left].
  right. right. now exists content.
Qed.

Lemma fold_reframe_frames (ls : list jsstring) :
  exists frames,
    fold_left (reframe_line E) ls [] = concat frames
    /\ Forall (frame E) frames
    /\ (length frames
        <= length (filter (fun line => startsWith line (js "data: ")) ls))%nat.
Proof.
  induction ls as [|l ls (frames & C & F & L)].
  - exists []. repeat split; [constructor | reflexivity].
  - cbn [fold_left filter]. rewrite fold_reframe_append, C.
    destruct (startsWith l (js "data: ")) eqn:P.
    + destruct (reframe_line_frame l) as [-> | Fl].
      * exists frames. repeat split; [assumption | cbn [length]; lia].
      * exists (reframe_line E [] l :: frames).
        repeat split; [now constructor | cbn [length]; lia].
    + rewrite (reframe_line_other E [] l P). now exists frames.
Qed.

End Buffer.

(** X23. The buffer is only ever appended to, and what a chunk adds does
    not depend on the chunks before it: the body built from a sequence of
    chunks is the body of its first part followed by the body of the
    rest. *)
Theorem reframe_concat (E : Engine) (chunks more : list jsstring) :
  reframe E (chunks ++ more) = reframe E chunks ++ reframe E more.
Proof.
  rewrite reframe_app. unfold reframe at 3. rewrite !reframe_lines.
  apply fold_reframe_append.
Qed.

(** X24. The buffer never holds anything but normalized frames: it is a
    sequence of sentinel frames and content frames of truthy contents, at
    most one for each line of the chunks that starts with [data: ]. *)
Theorem reframe_frames (E : Engine) (chunks : list jsstring) :
  exists frames,
    reframe E chunks = concat frames
    /\ Forall (frame E) frames
    /\ (length frames <= length (event_lines chunks))%nat.
Proof. unfold reframe. rewrite reframe_lines. apply fold_reframe_frames. Qed.

(** ** Chunk and line boundaries *)

Lemma split_lines_nonempty (s : jsstring) : split_lines s <> [].
Proof.
  destruct s as [|c s]; cbn [split_lines]; [discriminate|].
  destruct (c =? LF)%N; [discriminate|]. now destruct (split_lines s).
Qed.

Lemma split_lines_app (a b : jsstring) :
  split_lines (a ++ LF :: b) = split_lines a ++ split_lines b.
Proof.
  induction a as [|c a IH].
  - reflexivity.
  - cbn [app split_lines]. destruct (c =? LF)%N.
    + now rewrite IH.
    + rewrite IH. pose proof (split_lines_nonempty a) as N.
      now destruct (split_lines a).
Qed.

(** X25. Cutting a chunk in two next to a line feed, before it or after
    it, changes nothing: the body is the one of the uncut chunk. *)
Theorem cut_at_line_feed (E : Engine) (before after : list jsstring)
  (a b : jsstring) :
  reframe E (before ++ (a ++ [LF]) :: b :: after)
  = reframe E (before ++ (a ++ LF :: b) :: after)
  /\ reframe E (before ++ a :: (LF :: b) :: after)
     = reframe E (before ++ (a ++ LF :: b) :: after).
Proof.
  rewrite !reframe_app. cbn [fold_left]. unfold on_data.
  rewrite !split_lines_app, !fold_left_app.
  change (split_lines (LF :: b)) with ([] :: split_lines b).
  split; reflexivity.
Qed.

Lemma trimStart_all_blank (w : jsstring) : blank w = true -> trimStart w = [].
Proof.
  intros W. rewrite <- (app_nil_r w). now rewrite trimStart_blank.
Qed.

Lemma trim_all_blank (w : jsstring) : blank w = true -> trim w = [].
Proof. intros W. unfold trim. now rewrite trimStart_all_blank. Qed.

Lemma trimStart_app (x w : jsstring) :
  blank x = false -> trimStart (x ++ w) = trimStart x ++ w.
Proof.
  induction x as [|c x IH]; [discriminate|].
  cbn [blank forallb app trimStart]. destruct (is_js_space c); [exact IH | reflexivity].
Qed.

Lemma trim_app_blank (x w : jsstring) : blank w = true -> trim (x ++ w) = trim x.
Proof.
  intros W. unfold trim. destruct (blank x) eqn:X.
  - rewrite !trimStart_all_blank; [reflexivity | assumption |].
    rewrite blank_app, X, W. reflexivity.
  - rewrite trimStart_app by assumption. now apply trimEnd_blank.
Qed.

Lemma startsWith_late (a b p : jsstring) :
  startsWith (a ++ b) p = true -> startsWith a p = false ->
  exists p2, p = a ++ p2 /\ p2 <> [] /\ startsWith b p2 = true.
Proof.
  revert p; induction a as [|x a IH]; intros p T F.
  - exists p. repeat split; [|assumption]. intros ->. now destruct b.
  - destruct p as [|y p]; [discriminate F|].
    cbn [app startsWith] in T, F. apply andb_true_iff in T as [X T].
    rewrite X in F. cbn [andb] in F.
    apply N.eqb_eq in X as ->.
    destruct (IH p T F) as (p2 & -> & N & S). now exists p2.
Qed.

Lemma skipn_app_long {A} (n : nat) (a b : list A) :
  (n <= length a)%nat -> skipn n (a ++ b) = skipn n a ++ b.
Proof.
  intros L. rewrite skipn_app.
  replace (n - length a)%nat with 0%nat by lia. reflexivity.
Qed.

(** X26. White space at the end of a line never changes what the line
    adds to the buffer: a stream whose lines end in a carriage return and
    a line feed is reframed like one whose lines end in a line feed. *)
Theorem trailing_space_ignored (E : Engine) (sr line w : jsstring) :
  blank w = true ->
  reframe_line E sr (line ++ w) = reframe_line E sr line.
Proof.
  intros W. destruct (startsWith line (js "data: ")) eqn:P.
  - unfold reframe_line. rewrite P, (startsWith_prefix _ w _ P).
    pose proof (startsWith_split _ _ P) as El.
    rewrite skipn_app_long
      by (rewrite El, length_app; change (length (js "data: ")) with 6%nat; lia).
    now rewrite trim_app_blank.
  - rewrite (reframe_line_other E sr line P).
    destruct (startsWith (line ++ w) (js "data: ")) eqn:Q;
      [|now apply reframe_line_other].
    destruct (startsWith_late _ _ _ Q P) as (p2 & Ep & Np & Sp).
    pose proof (startsWith_split _ _ Sp) as Ew.
    assert (blank p2 = true) as Bp
      by (rewrite Ew, blank_app in W; now apply andb_true_iff in W).
    assert (blank (skipn (length p2) w) = true) as Br
      by (rewrite Ew, blank_app in W; now apply andb_true_iff in W).
    apply reframe_line_throws.
    + assert (skipn 6 (line ++ w) = skipn (length p2) w) as ->.
      { rewrite Ew at 1. rewrite app_assoc, <- Ep. reflexivity. }
      rewrite trim_all_blank by assumption. discriminate.
    + left.
      assert (skipn 6 (line ++ w) = skipn (length p2) w) as ->.
      { rewrite Ew at 1. rewrite app_assoc, <- Ep. reflexivity. }
      now apply trim_all_blank.
Qed.

Lemma trailing_space_ignored_witness :
  reframe_line sample_engine []
    (js "data: {'choices':[{'delta':{'content':'hi'}}]}" ++ [13%N])
  = reframe_line sample_engine []
      (js "data: {'choices':[{'delta':{'content':'hi'}}]}").
Proof. apply (trailing_space_ignored sample_engine [] _ [13%N]). reflexivity. Defined.

(** ** Reading a frame back *)

Lemma hex_value_digit (n : N) :
  (n < 16)%N -> Json.hex_value (hex_digit n) = Some n.
Proof.
  intros L. unfold hex_digit, Json.hex_value, Json.is_digit.
  destruct (N.ltb_spec n 10).
  - replace ((48 <=? 48 + n) && (48 + n <=? 57))%N with true
      by (symmetry; apply andb_true_iff; split; apply N.leb_le; lia).
    f_equal. lia.
  - replace ((48 <=? 87 + n) && (87 + n <=? 57))%N with false
      by (symmetry; apply andb_false_iff; right; apply N.leb_gt; lia).
    replace ((97 <=? 87 + n) && (87 + n <=? 102))%N with true
      by (symmetry; apply andb_true_iff; split; apply N.leb_le; lia).
    f_equal. lia.
Qed.

Lemma hex_digits_value (c : N) :
  (c < 65536)%N ->
  ((c / 4096) mod 16 * 4096 + (c / 256) mod 16 * 256 + (c / 16) mod 16 * 16
   + c mod 16)%N = c.
Proof.
  intros L.
  assert (c / 4096 < 16)%N as H by (apply N.Div0.div_lt_upper_bound; lia).
  pose proof (N.mod_small _ _ H) as M.
  pose proof (N.div_mod c 16 ltac:(discriminate)) as E0.
  pose proof (N.div_mod (c / 16) 16 ltac:(discriminate)) as E1.
  pose proof (N.div_mod (c / 256) 16 ltac:(discriminate)) as E2.
  rewrite N.Div0.div_div in E1. rewrite N.Div0.div_div in E2.
  change (16 * 16)%N with 256%N in *. change (256 * 16)%N with 4096%N in *.
  lia.
Qed.

Lemma parse_unicode_escape (c : N) (r : jsstring) :
  (c < 65536)%N ->
  parse_chars (unicode_escape c ++ r)
  = match parse_chars r with
    | Some (str, rest) => Some (c :: str, rest)
    | None => None
    end.
Proof.
  intros L. unfold unicode_escape. cbn [app parse_chars N.eqb Pos.eqb].
  rewrite !hex_value_digit by (apply N.mod_lt; discriminate).
  now rewrite hex_digits_value.
Qed.

Lemma parse_plain_char (c : N) (r : jsstring) :
  (c =? 34)%N = false -> (c =? 92)%N = false -> (c <? 32)%N = false ->
  parse_chars (c :: r)
  = match parse_chars r with
    | Some (str, rest) => Some (c :: str, rest)
    | None => None
    end.
Proof. intros Q B L. cbn [parse_chars]. now rewrite Q, B, L. Qed.

Lemma parse_quote_chars (n : nat) :
  forall s rest, (length s <= n)%nat -> utf16 s ->
  parse_chars (quote_chars s ++ 34%N :: rest) = Some (s, rest).
Proof.
  induction n as [|n IH]; intros s rest L U.
  - destruct s; [reflexivity | cbn [length] in L; lia].
  - destruct s as [|c s]; [reflexivity|].
    cbn [length] in L. inversion U as [|? ? Uc Us]; subst.
    assert (parse_chars (quote_chars s ++ 34%N :: rest) = Some (s, rest)) as Hs
      by (apply IH; [lia | assumption]).
    cbn [quote_chars].
    destruct (N.eqb_spec c 8) as [->|N8]; [cbn; now rewrite Hs|].
    destruct (N.eqb_spec c 9) as [->|N9]; [cbn; now rewrite Hs|].
    destruct (N.eqb_spec c 10) as [->|N10]; [cbn; now rewrite Hs|].
    destruct (N.eqb_spec c 12) as [->|N12]; [cbn; now rewrite Hs|].
    destruct (N.eqb_spec c 13) as [->|N13]; [cbn; now rewrite Hs|].
    destruct (N.eqb_spec c 34) as [->|N34]; [cbn; now rewrite Hs|].
    destruct (N.eqb_spec c 92) as [->|N92]; [cbn; now rewrite Hs|].
    destruct (N.ltb_spec c 32) as [L32|G32].
    { rewrite <- app_assoc, parse_unicode_escape by assumption. now rewrite Hs. }
    assert ((c =? 34)%N = false) as Q by now apply N.eqb_neq.
    assert ((c =? 92)%N = false) as B by now apply N.eqb_neq.
    assert ((c <? 32)%N = false) as G by now apply N.ltb_ge.
    destruct (is_high_surrogate c) eqn:Hi.
    { destruct s as [|d s].
      - rewrite parse_unicode_escape by assumption. reflexivity.
      - destruct (is_low_surrogate d) eqn:Lo.
        + cbn [app]. rewrite parse_plain_char by assumption.
          inversion Us as [|? ? Ud Us']; subst.
          unfold is_low_surrogate in Lo. apply andb_true_iff in Lo as [Lo _].
          apply N.leb_le in Lo.
          rewrite parse_plain_char
            by first [apply N.eqb_neq; lia | apply N.ltb_ge; lia].
          rewrite (IH s rest); [reflexivity | cbn [length] in L; lia | assumption].
        + rewrite <- app_assoc, parse_unicode_escape by assumption. now rewrite Hs. }
    destruct (is_low_surrogate c) eqn:Lo.
    { rewrite <- app_assoc, parse_unicode_escape by assumption. now rewrite Hs. }
    cbn [app]. rewrite parse_plain_char by assumption. now rewrite Hs.
Qed.

(** X27. A content frame can be read back: for a string content, the JSON
    text of the frame parses to an object whose only member is [content]
    with that very string, whatever control characters, quotes or lone
    surrogates it holds. *)
Theorem content_frame_round_trip (E : Engine) (s : jsstring) :
  utf16 s ->
  Json.parse (stringify E (VObj [(js "content", VStr s)]))
  = Some (VObj [(js "content", VStr s)]).
Proof.
  intros U. apply (parse_value_fuel 3 _ _ []); [|reflexivity].
  assert (stringify E (VObj [(js "content", VStr s)])
          = js "{'content':'" ++ quote_chars s ++ 34%N :: js "}") as ->.
  { unfold stringify, quote. cbn -[quote_chars].
    match goal with
    | |- context [quote_chars (?c :: ?k)] =>
        let name := eval vm_compute in (quote_chars (c :: k)) in
        change (quote_chars (c :: k)) with name
    end.
    cbn [app]. rewrite <- app_assoc. reflexivity. }
  cbn -[parse_chars quote_chars].
  cbn [parse_chars N.eqb Pos.eqb N.ltb N.compare Pos.compare Pos.compare_cont].
  cbn -[parse_chars quote_chars].
  rewrite (parse_quote_chars (length s) s [125%N] (le_n _) U).
  reflexivity.
Qed.

Lemma content_frame_round_trip_witness :
  Json.parse
    (stringify sample_engine
       (VObj [(js "content", VStr (js "a 'b'\n" ++ [7; 55357; 56832; 56832]%N))]))
  = Some (VObj [(js "content", VStr (js "a 'b'\n" ++ [7; 55357; 56832; 56832]%N))]).
Proof.
  apply (content_frame_round_trip sample_engine).
  repeat constructor.
Defined.
